(** * Abseil GDB pretty-printers ([absl.py]): a shallow embedding

    The Python module is embedded function by function.  Python [str] values
    are [string]s, Python [int]s are [Z], an exception is a value of [exn],
    and the debugger ([gdb]) is an explicit oracle whose calls are logged. *)

From Stdlib Require Import ZArith List String Ascii Bool Lia DecimalString Sorted.
From Stdlib Require HexadecimalString.
Import ListNotations.
Open Scope string_scope.
Open Scope Z_scope.

(** ** Python string primitives *)

Module Py.

(** [len(s)] *)
Definition len (s : string) : Z := Z.of_nat (String.length s).

(** [s.startswith(sub)] *)
Fixpoint startswith (s sub : string) {struct sub} : bool :=
  match sub with
  | EmptyString => true
  | String a sub' =>
      match s with
      | EmptyString => false
      | String b s' => Ascii.eqb a b && startswith s' sub'
      end
  end.

(** [s.find(sub)]: the lowest index at which [sub] occurs, or [-1]. *)
Fixpoint find_from (s sub : string) (i : Z) : Z :=
  if startswith s sub then i
  else match s with
       | EmptyString => -1
       | String _ s' => find_from s' sub (i + 1)
       end.

Definition find (s sub : string) : Z := find_from s sub 0.

Fixpoint take (n : nat) (s : string) : string :=
  match n, s with
  | S n', String c s' => String c (take n' s')
  | _, _ => EmptyString
  end.

Fixpoint drop (n : nat) (s : string) : string :=
  match n, s with
  | S n', String _ s' => drop n' s'
  | _, _ => s
  end.

(** A slice bound: negative bounds count from the end, and are clamped. *)
Definition bound (n : Z) (s : string) : nat :=
  if n <? 0 then Z.to_nat (Z.max 0 (n + len s)) else Z.to_nat n.

(** [s[:n]] and [s[n:]] *)
Definition slice_to (s : string) (n : Z) : string := take (bound n s) s.
Definition slice_from (s : string) (n : Z) : string := drop (bound n s) s.

(** [s[i]] for an index [i] inside the string: a string of one character
    (outside the string Python raises [IndexError]: [None]). *)
Definition item (s : string) (i : Z) : option string :=
  if (0 <=? i) && (i <? len s)
  then match String.get (Z.to_nat i) s with
       | Some c => Some (String c EmptyString)
       | None => None
       end
  else None.

(** [range(start, stop)] *)
Definition range (start stop : Z) : list Z :=
  map (fun k => start + Z.of_nat k) (seq 0 (Z.to_nat (stop - start))).

(** [str(n)] for a non-negative counter. *)
Definition str_of_nat (n : nat) : string := NilZero.string_of_uint (Nat.to_uint n).

(** [sep.join(l)] *)
Definition join (sep : string) (l : list string) : string := String.concat sep l.

(** [hex(n)] for a plain [int]: the digits in lower case after "0x", the
    sign first. *)
Definition hex (n : Z) : string :=
  if n <? 0
  then "-0x" ++ HexadecimalString.NilZero.string_of_uint (N.to_hex_uint (Z.to_N (- n)))
  else "0x" ++ HexadecimalString.NilZero.string_of_uint (N.to_hex_uint (Z.to_N n)).

Fixpoint zeros (n : nat) : string :=
  match n with
  | O => EmptyString
  | S n' => String "0" (zeros n')
  end.

(** [s.zfill(width)]: zeros on the left up to [width], after a sign. *)
Definition zfill (s : string) (width : Z) : string :=
  let pad := zeros (Z.to_nat (width - len s)) in
  match s with
  | String c rest =>
      if Ascii.eqb c "+" || Ascii.eqb c "-" then String c (pad ++ rest)
      else pad ++ s
  | EmptyString => pad
  end.

End Py.

(** ** Exceptions and results *)

(** The exception classes the module raises, catches or lets through.
    Each carries the text [str(exc)] gives; for [gdb.error] that text is
    also [exc.args[0]]. *)
Inductive exn : Type :=
| gdb_error (msg : string)          (* gdb.error, a RuntimeError *)
| ValueError (msg : string)
| OtherException (msg : string)     (* any other subclass of Exception *)
| KeyboardInterrupt.                (* a BaseException that is no Exception *)

Definition str_exn (e : exn) : string :=
  match e with
  | gdb_error msg | ValueError msg | OtherException msg => msg
  | KeyboardInterrupt => ""
  end.

(** [NameError] for a global name read before it is bound (the text is
    Python 2's: the file is Python 2, it ends in a print statement). *)
Definition NameError (name : string) : exn :=
  OtherException ("global name '" ++ name ++ "' is not defined").

(** [AttributeError] for a method an object does not have. *)
Definition AttributeError (class attr : string) : exn :=
  OtherException ("'" ++ class ++ "' object has no attribute '" ++ attr ++ "'").

(** What [except Exception] catches. *)
Definition is_Exception (e : exn) : bool :=
  match e with KeyboardInterrupt => false | _ => true end.

(** What [except gdb.error] catches. *)
Definition is_gdb_error (e : exn) : bool :=
  match e with gdb_error _ => true | _ => false end.

Inductive result (A : Type) : Type :=
| Ok (a : A)
| Raise (e : exn).
Arguments Ok {A} a.
Arguments Raise {A} e.

(** ** Identifier and small-string helpers *)

Definition MAX_DB_NAME_LENGTH : Z := 63.
Definition TENANT_ID_MASK : Z := 0x80.
Definition OBJECT_ID_WIDTH : Z := 12.

(** The text [extract_tenant_id] makes of the numbers it has read
    ([int(...)] of a debugger value is a plain [int], so [hex] adds no
    suffix). *)
Definition tenant_id_text (raw_bytes : list Z) : string :=
  Py.join "" (map (fun b => Py.zfill (Py.slice_from (Py.hex (Z.land b 0xFF)) 2) 2)
                  raw_bytes).

Definition is_small_string (flags : Z) : bool :=
  negb (Z.land flags 2 =? 0).

Definition small_string_size (flags : Z) : Z :=
  Z.shiftr flags 2.

(** ** Name insertion *)

(** Change this to your abseil version! *)
Definition ABSL_OPTION_INLINE_NAMESPACE_NAME : string := "lts_20240116".

(** Insert version inline namespace after the first `absl` namespace found
    in the given string. *)
Definition absl_insert_version_after_absl (cpp_name : string) : result string :=
  let absl_ns_str := "absl::" in
  let absl_ns_start := Py.find cpp_name absl_ns_str in
  if absl_ns_start =? -1
  then Raise (ValueError ("No `absl` namespace found in " ++ cpp_name))
  else
    let absl_ns_end := absl_ns_start + Py.len absl_ns_str in
    Ok (Py.slice_to cpp_name absl_ns_end
        ++ ABSL_OPTION_INLINE_NAMESPACE_NAME ++ "::"
        ++ Py.slice_from cpp_name absl_ns_end).

(** ** Bracket matching *)

(** The loop of [find_match_brackets]: [indices] is what is left of
    [range(start, str_len)], [count] the bracket depth so far. *)
Fixpoint find_match_loop (search opening closing : string)
         (indices : list Z) (count : Z) : Z :=
  match indices with
  | [] => -1
  | index :: rest =>
      match Py.item search index with
      | None => -1
      | Some char =>
          let count :=
            if String.eqb char opening then count + 1
            else if String.eqb char closing then count - 1
            else count in
          if count =? 0 then index
          else find_match_loop search opening closing rest count
      end
  end.

(** Return the index of the closing bracket that matches the first opening
    bracket; [-1] if no last matching bracket is found. *)
Definition find_match_brackets_with (search opening closing : string) : Z :=
  let index := Py.find search opening in
  if index =? -1 then -1
  else
    let start := index + 1 in
    let count := 1 in
    let str_len := Py.len search in
    find_match_loop search opening closing (Py.range start str_len) count.

Definition find_match_brackets (search : string) : Z :=
  find_match_brackets_with search "<" ">".

(** ** The debugger as an oracle *)

Section Gdb.

(** [gdb.Value], [gdb.Type] and [gdb.Block]: opaque handles. *)
Context {Value GType Block : Type}.

(** What the module asks of [gdb].  Every answer is a value or an exception;
    the inferior is a frozen image, so an answer does not change in time. *)
Record Oracle : Type := {
  gdb_lookup_type : string -> result GType;              (* gdb.lookup_type(name) *)
  gdb_lookup_type_in : string -> Block -> result GType;  (* gdb.lookup_type(name, block) *)
  gdb_global_block_of : string -> result Block;
      (* gdb.lookup_symbol(name)[0].symtab.global_block() *)
  value_field : Value -> string -> result Value;         (* v[name] *)
  value_index : Value -> Z -> result Value;              (* v[i] *)
  value_cast : Value -> GType -> result Value;           (* v.cast(t) *)
  value_int : Value -> result Z;                         (* int(v) *)
  value_eq_int : Value -> Z -> result bool;              (* v == n *)
  value_dereference : Value -> result Value;             (* v.dereference() *)
  value_str : Value -> result string;                    (* str(v) *)
  value_type : Value -> GType;                           (* v.type *)
  type_strip_typedefs : GType -> result GType;           (* t.strip_typedefs() *)
  type_pointer : GType -> result GType;                  (* t.pointer() *)
  type_template_argument : GType -> Z -> result GType;   (* t.template_argument(n) *)
  type_str : GType -> result string;                     (* str(t) *)
  basic_type_tag : GType -> option string;   (* gdb.types.get_basic_type(t).tag *)
  type_name : GType -> option string                     (* t.name *)
}.

Variable gdb : Oracle.

(** The log of what was asked of the symbol tables and of the inferior. *)
Inductive Event : Type :=
| EvLookupType (name : string)
| EvLookupTypeIn (name : string) (b : Block)
| EvLookupSymbol (name : string)
| EvField (v : Value) (name : string)
| EvIndex (v : Value) (i : Z)
| EvCast (v : Value) (t : GType)
| EvInt (v : Value)
| EvEq (v : Value) (n : Z)
| EvDeref (v : Value)
| EvStr (v : Value).

(** A module-level name is unbound until it is first assigned. *)
Inductive global (A : Type) : Type :=
| Unbound
| Bound (a : A).
Arguments Unbound {A}.
Arguments Bound {A} a.

(** The state the module runs in: its one global variable, and the log
    (latest event first). *)
Record World : Type := {
  MAIN_GLOBAL_BLOCK : global (option Block);
  trace : list Event
}.

(** The module's globals once the file has been loaded: no statement of the
    file assigns [MAIN_GLOBAL_BLOCK] at module level. *)
Definition module_loaded : World :=
  {| MAIN_GLOBAL_BLOCK := Unbound; trace := [] |}.

Definition log (ev : Event) (w : World) : World :=
  {| MAIN_GLOBAL_BLOCK := MAIN_GLOBAL_BLOCK w; trace := ev :: trace w |}.

(** *** Computations that may raise *)

Definition M (A : Type) : Type := World -> result A * World.

Definition ret {A} (a : A) : M A := fun w => (Ok a, w).
Definition raise {A} (e : exn) : M A := fun w => (Raise e, w).
Definition bind {A B} (m : M A) (k : A -> M B) : M B :=
  fun w => match m w with
           | (Ok a, w') => k a w'
           | (Raise e, w') => (Raise e, w')
           end.
Definition lift {A} (r : result A) : M A := fun w => (r, w).
Definition ask {A} (ev : Event) (r : result A) : M A := fun w => (r, log ev w).

(** [try: m  except <class> as e: h e] *)
Definition try_except {A} (m : M A) (catches : exn -> bool) (h : exn -> M A) : M A :=
  fun w => match m w with
           | (Ok a, w') => (Ok a, w')
           | (Raise e, w') => if catches e then h e w' else (Raise e, w')
           end.

Definition get_MAIN_GLOBAL_BLOCK : M (option Block) :=
  fun w => match MAIN_GLOBAL_BLOCK w with
           | Bound b => (Ok b, w)
           | Unbound =>
               (Raise (NameError "MAIN_GLOBAL_BLOCK"), w)
           end.
Definition set_MAIN_GLOBAL_BLOCK (b : option Block) : M unit :=
  fun w => (Ok tt, {| MAIN_GLOBAL_BLOCK := Bound b; trace := trace w |}).

Notation "x <- m ;; k" := (bind m (fun x => k))
  (at level 61, m at next level, right associativity).
Notation "m ;;; k" := (bind m (fun _ => k))
  (at level 61, right associativity).

Definition field (v : Value) (name : string) : M Value :=
  ask (EvField v name) (value_field gdb v name).
Definition index (v : Value) (i : Z) : M Value :=
  ask (EvIndex v i) (value_index gdb v i).
Definition cast (v : Value) (t : GType) : M Value :=
  ask (EvCast v t) (value_cast gdb v t).
Definition int (v : Value) : M Z := ask (EvInt v) (value_int gdb v).
Definition eq_int (v : Value) (n : Z) : M bool := ask (EvEq v n) (value_eq_int gdb v n).
Definition dereference (v : Value) : M Value :=
  ask (EvDeref v) (value_dereference gdb v).
Definition str (v : Value) : M string := ask (EvStr v) (value_str gdb v).
Definition gdb_lookup (name : string) : M GType :=
  ask (EvLookupType name) (gdb_lookup_type gdb name).
Definition gdb_lookup_in (name : string) (b : Block) : M GType :=
  ask (EvLookupTypeIn name b) (gdb_lookup_type_in gdb name b).
Definition global_block_of (name : string) : M Block :=
  ask (EvLookupSymbol name) (gdb_global_block_of gdb name).

(** *** lookup_type *)

(** Try to find the type object from string. *)
Definition lookup_type (gdb_type_str : string) : M GType :=
  let exceptions : list exn := [] in
  try_except (gdb_lookup gdb_type_str) is_Exception (fun exc =>
    let exceptions := (exceptions ++ [exc])%list in
    cached <- get_MAIN_GLOBAL_BLOCK ;;
    block <- match cached with
             | None =>
                 b <- global_block_of "main" ;;
                 set_MAIN_GLOBAL_BLOCK (Some b) ;;;
                 ret b
             | Some b => ret b
             end ;;
    try_except (gdb_lookup_in gdb_type_str block) is_Exception (fun exc =>
      let exceptions := (exceptions ++ [exc])%list in
      raise (gdb_error ("Failed to get type, tried:" ++ String "010" ""
                        ++ Py.join (String "010" "") (map str_exn exceptions))))).

(** *** Table accessor *)

Definition storage_name : string :=
  "absl::container_internal::internal_compressed_tuple::Storage".
Definition storage_args : string :=
  "<absl::container_internal::CommonFields, 0, false>".

(** The two spellings [absl_get_settings] asks for, in order. *)
Definition first_candidate : M string :=
  a <- lift (absl_insert_version_after_absl storage_name) ;;
  b <- lift (absl_insert_version_after_absl storage_args) ;;
  ret (a ++ b).
Definition second_candidate : M string :=
  lift (absl_insert_version_after_absl (storage_name ++ storage_args)).

(** Gets the settings_ field for abseil (flat/node)_hash_(map/set). *)
Definition absl_get_settings (val : Value) : M Value :=
  common_fields_storage_type <-
    try_except (n <- first_candidate ;; gdb_lookup n) is_gdb_error (fun err =>
      if negb (Py.startswith (str_exn err) "No type named ") then raise err
      else n <- second_candidate ;; gdb_lookup n) ;;
  s <- field val "settings_" ;;
  c <- cast s common_fields_storage_type ;;
  field c "value".

Definition absl_container_size (settings : Value) : M Value :=
  try_except (t <- field settings "compressed_tuple_" ;; field t "value")
             (fun _ => true)
             (fun _ => field settings "capacity_").

(** *** Generators *)

(** One resumption of a generator: it ends, raises, or yields a value and
    the rest of itself, to be resumed in the world the consumer then has. *)
Inductive GenStep (A : Type) : Type :=
| Done (w : World)
| Raised (e : exn) (w : World)
| Yielded (a : A) (w : World) (next : World -> GenStep A).
Arguments Done {A} w.
Arguments Raised {A} e w.
Arguments Yielded {A} a w next.

Definition Gen (A : Type) : Type := World -> GenStep A.

(** Statements run before the generator goes on as [k]. *)
Definition gen_do {A B} (m : M A) (k : A -> Gen B) : Gen B :=
  fun w => match m w with
           | (Ok a, w') => k a w'
           | (Raise e, w') => Raised e w'
           end.

(** What a consumer that exhausts the generator sees: the values yielded,
    how the generator ended, and the world left. *)
Fixpoint drain_step {A} (s : GenStep A) : list A * result unit * World :=
  match s with
  | Done w => ([], Ok tt, w)
  | Raised e w => ([], Raise e, w)
  | Yielded a w next =>
      let '(l, r, w') := drain_step (next w) in (a :: l, r, w')
  end.

Definition drain {A} (g : Gen A) (w : World) : list A * result unit * World :=
  drain_step (g w).

Definition yielded {A} (g : Gen A) (w : World) : list A := fst (fst (drain g w)).
Definition outcome {A} (g : Gen A) (w : World) : result unit := snd (fst (drain g w)).
Definition world_after {A} (g : Gen A) (w : World) : World := snd (drain g w).

(** *** Slot walker *)

(** The [for item in range(capacity)] loop of [absl_get_nodes]. *)
Fixpoint absl_get_nodes_loop (settings ctrl : Value) (slot_type : GType)
         (items : list Z) : Gen Value :=
  fun w =>
    match items with
    | [] => Done w
    | item :: rest =>
        match (c <- index ctrl item ;; int c) w with
        | (Raise e, w1) => Raised e w1
        | (Ok ctrl_t, w1) =>
            if ctrl_t >=? 0 then
              match (s <- field settings "slots_" ;;
                     p <- lift (type_pointer gdb slot_type) ;;
                     a <- cast s p ;;
                     index a item) w1 with
              | (Raise e, w2) => Raised e w2
              | (Ok node, w2) =>
                  Yielded node w2 (absl_get_nodes_loop settings ctrl slot_type rest)
              end
            else absl_get_nodes_loop settings ctrl slot_type rest w1
        end
    end.

(** The name [absl_get_nodes] looks up for the slots' type. *)
Definition slot_type_name (val : Value) : M string :=
  t <- lift (type_strip_typedefs gdb (value_type gdb val)) ;;
  s <- lift (type_str gdb t) ;;
  ret (s ++ "::slot_type").

(** Derive the underlying type stored in the container. *)
Definition resolve_slot_type (val : Value) : M GType :=
  n <- slot_type_name val ;;
  t <- lookup_type n ;;
  lift (type_strip_typedefs gdb t).

(** Return a generator of every node in
    absl::container_internal::raw_hash_set and derived classes. *)
Definition absl_get_nodes (val : Value) : Gen Value :=
  gen_do (absl_get_settings val) (fun settings =>
  gen_do (absl_container_size settings) (fun size =>
  gen_do (eq_int size 0) (fun size_is_0 =>
  if size_is_0 : bool then Done
  else
  gen_do (c <- field settings "capacity_" ;; int c) (fun capacity =>
  gen_do (field settings "control_") (fun ctrl =>
  gen_do (resolve_slot_type val) (fun slot_type =>
  absl_get_nodes_loop settings ctrl slot_type (Py.range 0 capacity))))))).

(** *** Container printers *)

Inductive Printer : Type :=
| AbslNodeHashSetPrinter
| AbslFlatHashSetPrinter
| AbslNodeHashMapPrinter
| AbslFlatHashMapPrinter
| BoostOptionalPrinter.

(** The [to_str] each container printer hands to its base class. *)
Definition to_str (p : Printer) : string :=
  match p with
  | AbslNodeHashSetPrinter | AbslNodeHashMapPrinter => "node"
  | _ => "flat"
  end.

Definition display_hint (p : Printer) : option string :=
  match p with
  | AbslNodeHashSetPrinter | AbslFlatHashSetPrinter => Some "array"
  | AbslNodeHashMapPrinter | AbslFlatHashMapPrinter => Some "map"
  | BoostOptionalPrinter => None
  end.

(** [AbslHashSetPrinterBase.to_string] *)
Definition hash_set_to_string (to_str : string) (val : Value) : M string :=
  arg0 <- lift (type_template_argument gdb (value_type gdb val) 0) ;;
  settings <- absl_get_settings val ;;
  size <- absl_container_size settings ;;
  s0 <- lift (type_str gdb arg0) ;;
  n <- str size ;;
  ret ("absl::" ++ to_str ++ "_hash_set<" ++ s0 ++ "> with " ++ n ++ " elems ").

(** [AbslHashMapPrinterBase.to_string] *)
Definition hash_map_to_string (to_str : string) (val : Value) : M string :=
  arg0 <- lift (type_template_argument gdb (value_type gdb val) 0) ;;
  arg1 <- lift (type_template_argument gdb (value_type gdb val) 1) ;;
  settings <- absl_get_settings val ;;
  size <- absl_container_size settings ;;
  s0 <- lift (type_str gdb arg0) ;;
  s1 <- lift (type_str gdb arg1) ;;
  n <- str size ;;
  ret ("absl::" ++ to_str ++ "_hash_map<" ++ s0 ++ ", " ++ s1 ++ "> with " ++ n
       ++ " elems ").

(** [AbslNodeHashSetPrinter.children], from [count] on. *)
Fixpoint node_set_children (count : nat) (nodes : GenStep Value)
  : GenStep (string * Value) :=
  match nodes with
  | Done w => Done w
  | Raised e w => Raised e w
  | Yielded val w next =>
      match dereference val w with
      | (Raise e, w1) => Raised e w1
      | (Ok d, w1) =>
          Yielded (Py.str_of_nat count, d) w1
                  (fun w2 => node_set_children (count + 1) (next w2))
      end
  end.

(** [AbslFlatHashSetPrinter.children], from [count] on. *)
Fixpoint flat_set_children (count : nat) (nodes : GenStep Value)
  : GenStep (string * Value) :=
  match nodes with
  | Done w => Done w
  | Raised e w => Raised e w
  | Yielded val w next =>
      Yielded (Py.str_of_nat count, val) w
              (fun w1 => flat_set_children (count + 1) (next w1))
  end.

(** [AbslNodeHashMapPrinter.children], from [count] on. *)
Fixpoint node_map_children (count : nat) (nodes : GenStep Value)
  : GenStep (string * Value) :=
  match nodes with
  | Done w => Done w
  | Raised e w => Raised e w
  | Yielded kvp w next =>
      match field kvp "first" w with
      | (Raise e, w1) => Raised e w1
      | (Ok k, w1) =>
          Yielded (Py.str_of_nat count, k) w1 (fun w2 =>
            let count := (count + 1)%nat in
            match field kvp "second" w2 with
            | (Raise e, w3) => Raised e w3
            | (Ok v, w3) =>
                Yielded (Py.str_of_nat count, v) w3
                        (fun w4 => node_map_children (count + 1) (next w4))
            end)
      end
  end.

(** [AbslFlatHashMapPrinter.children], from [count] on. *)
Fixpoint flat_map_children (count : nat) (nodes : GenStep Value)
  : GenStep (string * Value) :=
  match nodes with
  | Done w => Done w
  | Raised e w => Raised e w
  | Yielded kvp w next =>
      match field kvp "key" w with
      | (Raise e, w1) => Raised e w1
      | (Ok k, w1) =>
          Yielded (Py.str_of_nat count, k) w1 (fun w2 =>
            let count := (count + 1)%nat in
            match (v <- field kvp "value" ;; field v "second") w2 with
            | (Raise e, w3) => Raised e w3
            | (Ok v, w3) =>
                Yielded (Py.str_of_nat count, v) w3
                        (fun w4 => flat_map_children (count + 1) (next w4))
            end)
      end
  end.

(** [p.children()] for the four container printers. *)
Definition children (p : Printer) (val : Value) : Gen (string * Value) :=
  fun w =>
    match p with
    | AbslNodeHashSetPrinter => node_set_children 0 (absl_get_nodes val w)
    | AbslFlatHashSetPrinter => flat_set_children 0 (absl_get_nodes val w)
    | AbslNodeHashMapPrinter => node_map_children 0 (absl_get_nodes val w)
    | AbslFlatHashMapPrinter => flat_map_children 0 (absl_get_nodes val w)
    | BoostOptionalPrinter =>
        Raised (AttributeError "BoostOptionalPrinter" "children") w
    end.

(** [p.to_string()] for the four container printers. *)
Definition to_string (p : Printer) (val : Value) : M string :=
  match p with
  | AbslNodeHashSetPrinter | AbslFlatHashSetPrinter => hash_set_to_string (to_str p) val
  | AbslNodeHashMapPrinter | AbslFlatHashMapPrinter => hash_map_to_string (to_str p) val
  | BoostOptionalPrinter =>
      raise (NameError "get_boost_optional")
  end.

(** *** Printer dispatcher *)

Record MongoSubPrettyPrinter : Type := {
  name : string;
  enabled : bool;
  prefix : string;
  is_template : bool;
  printer : Printer
}.

(** [MongoPrettyPrinterCollection.add]: a new subprinter is enabled. *)
Definition add (subprinters : list MongoSubPrettyPrinter)
           (name prefix : string) (is_template : bool) (printer : Printer)
  : list MongoSubPrettyPrinter :=
  (subprinters ++ [ {| name := name; enabled := true; prefix := prefix;
                       is_template := is_template; printer := printer |} ])%list.

(** Python's [not x] for a string that may be [None]. *)
Definition falsy (o : option string) : bool :=
  match o with
  | None => true
  | Some s => String.eqb s ""
  end.

(** The [for printer in self.subprinters] loop of [__call__]. *)
Fixpoint call_loop (lookup_tag : string) (index : Z)
         (subprinters : list MongoSubPrettyPrinter) (val : Value)
  : option (Printer * Value) :=
  match subprinters with
  | [] => None
  | printer_ :: rest =>
      if negb (enabled printer_) then call_loop lookup_tag index rest val
      else if is_template printer_ then
        if (index + 1 =? Py.len lookup_tag)
           && (Py.find lookup_tag (prefix printer_) =? 0)
        then Some (printer printer_, val)
        else call_loop lookup_tag index rest val
      else if String.eqb lookup_tag (prefix printer_)
        then Some (printer printer_, val)
        else call_loop lookup_tag index rest val
  end.

(** [__call__] once the type name is known. *)
Definition call_tag (subprinters : list MongoSubPrettyPrinter)
           (lookup_tag : option string) (val : Value) : option (Printer * Value) :=
  match lookup_tag with
  | None => None
  | Some tag =>
      if falsy lookup_tag then None
      else
        let index := find_match_brackets tag in
        call_loop tag index subprinters val
  end.

(** Return matched printer type. *)
Definition call (subprinters : list MongoSubPrettyPrinter) (val : Value)
  : option (Printer * Value) :=
  let lookup_tag := basic_type_tag gdb (value_type gdb val) in
  let lookup_tag :=
    if falsy lookup_tag then type_name gdb (value_type gdb val) else lookup_tag in
  call_tag subprinters lookup_tag val.

(** Build a pretty printer. *)
Definition build_pretty_printer : result (list MongoSubPrettyPrinter) :=
  let pp := [] in
  match absl_insert_version_after_absl "absl::node_hash_map" with
  | Raise e => Raise e
  | Ok p1 =>
  let pp := add pp "node_hash_map" p1 true AbslNodeHashMapPrinter in
  match absl_insert_version_after_absl "absl::node_hash_set" with
  | Raise e => Raise e
  | Ok p2 =>
  let pp := add pp "node_hash_set" p2 true AbslNodeHashSetPrinter in
  match absl_insert_version_after_absl "absl::flat_hash_map" with
  | Raise e => Raise e
  | Ok p3 =>
  let pp := add pp "flat_hash_map" p3 true AbslFlatHashMapPrinter in
  match absl_insert_version_after_absl "absl::flat_hash_set" with
  | Raise e => Raise e
  | Ok p4 =>
  let pp := add pp "flat_hash_set" p4 true AbslFlatHashSetPrinter in
  let pp := add pp "boost::optional" "boost::optional" true BoostOptionalPrinter in
  Ok pp
  end end end end.

End Gdb.

Arguments Unbound {A}.
Arguments Bound {A} a.
Arguments Done {Value GType Block A} w.
Arguments Raised {Value GType Block A} e w.
Arguments Yielded {Value GType Block A} a w next.
Arguments Oracle : clear implicits.
Arguments World : clear implicits.
Arguments Event : clear implicits.

Notation "x <- m ;; k" := (bind m (fun x => k))
  (at level 61, m at next level, right associativity).

(** *** Identifier helper *)

Section Helpers.

Context {Value GType Block : Type} (gdb : Oracle Value GType Block).

(** A list comprehension [[f(i) for i in l]] whose element may raise. *)
Fixpoint comprehension {A B} (l : list A) (f : A -> @M Value GType Block B)
  : M (list B) :=
  match l with
  | [] => ret []
  | i :: l' =>
      b <- f i ;;
      bs <- comprehension l' f ;;
      ret (b :: bs)
  end.

Definition extract_tenant_id (data : Value) : M string :=
  raw_bytes <- comprehension (Py.range 1 (OBJECT_ID_WIDTH + 1))
                             (fun i => v <- index gdb data i ;; int gdb v) ;;
  ret (tenant_id_text raw_bytes).

End Helpers.

(** * Vocabulary of the properties *)

(** The two spellings of the settings storage type, as
    [absl_get_settings] builds them. *)
Definition first_spelling : string :=
  "absl::lts_20240116::container_internal::internal_compressed_tuple::Storage<absl::lts_20240116::container_internal::CommonFields, 0, false>".
Definition second_spelling : string :=
  "absl::lts_20240116::container_internal::internal_compressed_tuple::Storage<absl::container_internal::CommonFields, 0, false>".

(** ** Strings following the spec's words *)

(** [sub] occurs in [s]. *)
Definition occurs (sub s : string) : Prop :=
  exists pre post, s = pre ++ sub ++ post.

(** In [pre ++ "absl::" ++ post] the first root token is the one that
    follows [pre]: no root token starts inside [pre]. *)
Definition root_first_after (pre : string) : Prop :=
  ~ occurs "absl::" (pre ++ "absl:").

(** The token inserted by the name resolver, with its separator. *)
Definition version_token : string := ABSL_OPTION_INLINE_NAMESPACE_NAME ++ "::".

(** Every occurrence of the root token in [s] is followed by the version
    token. *)
Fixpoint every_root_versioned (s : string) : bool :=
  (if Py.startswith s "absl::"
   then Py.startswith s ("absl::" ++ version_token) else true)
  && match s with
     | EmptyString => true
     | String _ s' => every_root_versioned s'
     end.

(** Stripping the version token by string search and removal: the first
    occurrence found is cut out. *)
Definition spec_strip_version (s : string) : string :=
  let i := Py.find s version_token in
  if i =? -1 then s
  else Py.slice_to s i ++ Py.slice_from s (i + Py.len version_token).

(** ** Brackets following the spec's words *)

(** The spec's reading of a matching bracket: between a "<" and the ">" that
    closes it stands a text in which the brackets are balanced, that is, no
    beginning of it closes more than it opened, and all of it closes as many
    as it opened. *)
Definition bracket_step (c : ascii) : Z :=
  if Ascii.eqb c "<" then 1 else if Ascii.eqb c ">" then -1 else 0.

Fixpoint balanced_from (depth : Z) (body : string) : bool :=
  match body with
  | EmptyString => depth =? 0
  | String c body' =>
      (0 <=? depth + bracket_step c) && balanced_from (depth + bracket_step c) body'
  end.

Definition balanced (body : string) : bool := balanced_from 0 body.

(** The ">" at index [j] of [s] closes the first "<" of [s]. *)
Definition closes_first_open (s : string) (j : Z) : Prop :=
  exists pre body post,
    s = pre ++ "<" ++ body ++ ">" ++ post
    /\ ~ occurs "<" pre
    /\ balanced body = true
    /\ j = Py.len pre + 1 + Py.len body.

(** The closing bracket that pairs the first "<" is the last character. *)
Definition closes_at_end (tag : string) : Prop :=
  exists pre body,
    tag = pre ++ "<" ++ body ++ ">" /\ ~ occurs "<" pre /\ balanced body = true.

(** The loop of [find_match_brackets] as a walk over the characters left. *)
Fixpoint scan (rest : string) (index count : Z) : Z :=
  match rest with
  | EmptyString => -1
  | String c rest' =>
      let count := count + bracket_step c in
      if count =? 0 then index else scan rest' (index + 1) count
  end.

(** The dispatcher with one enabled entry of templated kind. *)
Definition templated (name prefix : string) (printer : Printer)
  : MongoSubPrettyPrinter :=
  {| name := name; enabled := true; prefix := prefix;
     is_template := true; printer := printer |}.

(** ** Control bytes *)

(** The indices of the non-negative control bytes, in ascending order,
    counted from [i] for the first byte. *)
Fixpoint occupied_from (i : nat) (bytes : list Z) : list nat :=
  match bytes with
  | [] => []
  | b :: bytes' =>
      if 0 <=? b then i :: occupied_from (S i) bytes'
      else occupied_from (S i) bytes'
  end.

Definition occupied (bytes : list Z) : list nat := occupied_from 0 bytes.

(** How many control bytes are non-negative. *)
Definition count_occupied (bytes : list Z) : nat :=
  List.length (filter (fun b => 0 <=? b) bytes).

(** ** Runs and logs *)

(** A computation answers [a] when it returns [a] in whatever world it runs. *)
Definition answers {Value GType Block A : Type}
           (m : M (Value:=Value) (GType:=GType) (Block:=Block) A) (a : A) : Prop :=
  forall w, fst (m w) = Ok a.

Section Vocabulary.

Context {Value GType Block : Type} (gdb : Oracle Value GType Block).

Implicit Types w : World Value GType Block.
Implicit Types P : Event Value GType Block -> bool.

(** What [absl_get_settings] does once the storage type is known. *)
Definition read_settings (val : Value) (ty : GType) : M Value :=
  s <- field gdb val "settings_" ;;
  c <- cast gdb s ty ;;
  field gdb c "value".

(** [w'] is [w] with more events logged, all of them in [P]. *)
Definition extends P w w' : Prop :=
  exists evs, trace w' = (evs ++ trace w)%list /\ forallb P evs = true.

(** Every event a run of [m] logs is in [P]. *)
Definition logs {A} P (m : M A) : Prop := forall w, extends P w (snd (m w)).

(** A run of [m] leaves the module's global as it was. *)
Definition keeps {A} (m : M (Value:=Value) (GType:=GType) (Block:=Block) A) : Prop :=
  forall w, MAIN_GLOBAL_BLOCK (snd (m w)) = MAIN_GLOBAL_BLOCK w.

(** An element of an array in the inferior is read. *)
Definition reads_array (ev : Event Value GType Block) : bool :=
  match ev with
  | EvIndex _ _ => true
  | _ => false
  end.

(** The control-byte array or the slot array is asked for. *)
Definition names_array (ev : Event Value GType Block) : bool :=
  match ev with
  | EvField _ name => String.eqb name "control_" || String.eqb name "slots_"
  | _ => false
  end.

Definition away_from_arrays (ev : Event Value GType Block) : bool :=
  negb (reads_array ev) && negb (names_array ev).

Definition away_from_slots (ev : Event Value GType Block) : bool :=
  negb (reads_array ev)
  && match ev with
     | EvField _ name => negb (String.eqb name "slots_")
     | _ => true
     end.

(** A generator that yields nothing and leaves a log that [w0]'s extends
    with events in [P] only. *)
Definition ends_quietly {A} (P : Event Value GType Block -> bool) w0
           (s : GenStep A) : Prop :=
  match s with
  | Done w' | Raised _ w' => extends P w0 w'
  | Yielded _ _ _ => False
  end.

(** The generator yields the values of [l], in order, and then ends,
    in whatever worlds it is resumed. *)
Inductive yields_all {A : Type} : list A -> GenStep A -> Prop :=
| yields_done w : yields_all [] (Done w)
| yields_more a l w next :
    (forall w', yields_all l (next w')) -> yields_all (a :: l) (Yielded a w next).

(** What a printer reads of one slot, and the values it shows for it. *)
Definition child_reads (p : Printer) (node : Value) (out : list Value) : Prop :=
  match p with
  | AbslFlatHashSetPrinter => out = [node]
  | AbslNodeHashSetPrinter =>
      exists d, value_dereference gdb node = Ok d /\ out = [d]
  | AbslNodeHashMapPrinter =>
      exists k v, value_field gdb node "first" = Ok k
                  /\ value_field gdb node "second" = Ok v /\ out = [k; v]
  | AbslFlatHashMapPrinter =>
      exists k pair v, value_field gdb node "key" = Ok k
                       /\ value_field gdb node "value" = Ok pair
                       /\ value_field gdb pair "second" = Ok v /\ out = [k; v]
  | BoostOptionalPrinter => False
  end.

(** Values labelled with the decimal numbers from [count] on. *)
Fixpoint labelled (count : nat) (l : list Value) : list (string * Value) :=
  match l with
  | [] => []
  | v :: l' => (Py.str_of_nat count, v) :: labelled (S count) l'
  end.

Definition is_map (p : Printer) : bool :=
  match p with
  | AbslNodeHashMapPrinter | AbslFlatHashMapPrinter => true
  | _ => false
  end.

(** The loop of [p.children()], run on the walker's generator, for the
    printers that have one. *)
Definition children_on (p : Printer) (count : nat) (nodes : GenStep Value)
  : GenStep (string * Value) :=
  match p with
  | AbslNodeHashSetPrinter => node_set_children gdb count nodes
  | AbslFlatHashSetPrinter => flat_set_children count nodes
  | AbslNodeHashMapPrinter => node_map_children gdb count nodes
  | AbslFlatHashMapPrinter => flat_map_children gdb count nodes
  | BoostOptionalPrinter =>
      Raised (AttributeError "BoostOptionalPrinter" "children") module_loaded
  end.

(** The block the second lookup is made in, and the world after it was
    found: the cached one, or main's global block, resolved and cached. *)
Definition second_scope (name : string) w : result (Block * World Value GType Block) :=
  match MAIN_GLOBAL_BLOCK w with
  | Unbound => Raise (NameError "MAIN_GLOBAL_BLOCK")
  | Bound (Some b) => Ok (b, log (EvLookupType name) w)
  | Bound None =>
      match gdb_global_block_of gdb "main" with
      | Ok b =>
          Ok (b, {| MAIN_GLOBAL_BLOCK := Bound (Some b);
                    trace := EvLookupSymbol "main" :: EvLookupType name :: trace w |})
      | Raise e => Raise e
      end
  end.

End Vocabulary.

(** ** A small inferior

    A concrete image to run the module on: one table of [flat_hash_set<int>]
    shape whose control bytes, reported size and symbol tables are
    parameters. *)

Module Toy.

Inductive value : Type :=
| Table                 (* the container *)
| SettingsField         (* Table["settings_"] *)
| Storage               (* ... cast to the Storage type *)
| Common                (* Storage["value"]: the CommonFields *)
| Tuple                 (* Common["compressed_tuple_"] *)
| Size                  (* Tuple["value"] *)
| Capacity              (* Common["capacity_"] *)
| Control               (* Common["control_"] *)
| Slots                 (* Common["slots_"] *)
| SlotArray             (* Slots cast to slot_type* *)
| Ctrl (i : Z)          (* Control[i] *)
| Slot (i : Z)          (* SlotArray[i] *)
| Pointee (i : Z)       (* Slot(i).dereference() *)
| Key (i : Z)           (* the key stored in slot i *)
| Pair (i : Z)          (* Slot(i)["value"] *)
| Mapped (i : Z).       (* the mapped value stored in slot i *)

Inductive type : Type :=
| TableType | StorageType | SlotType | SlotPointer | IntType.

Record image : Type := {
  ctrl_bytes : list Z;        (* int(Control[i]), for i below the capacity *)
  size : Z;                   (* what the size field holds *)
  spaced_spelling : bool;     (* the first candidate spelling is known *)
  size_in_tuple : bool;       (* the layout has compressed_tuple_ *)
  default_scope : bool        (* the default scope knows the slot type *)
}.

Definition table_name : string := "absl::lts_20240116::flat_hash_set<int>".

Definition no_type (name : string) : exn :=
  gdb_error ("No type named " ++ name ++ ".").
Definition no_field (name : string) : exn :=
  gdb_error ("There is no member named " ++ name ++ ".").

Definition lookup_in_main (name : string) : result type :=
  if String.eqb name first_spelling then Ok StorageType
  else if String.eqb name second_spelling then Ok StorageType
  else if String.eqb name (table_name ++ "::slot_type") then Ok SlotType
  else Raise (no_type name).

Definition lookup_default (im : image) (name : string) : result type :=
  if String.eqb name first_spelling
  then if spaced_spelling im then Ok StorageType else Raise (no_type name)
  else if String.eqb name (table_name ++ "::slot_type")
  then if default_scope im then Ok SlotType else Raise (no_type name)
  else lookup_in_main name.

Definition read_field (im : image) (v : value) (name : string) : result value :=
  match v with
  | Table => if String.eqb name "settings_" then Ok SettingsField else Raise (no_field name)
  | Storage => if String.eqb name "value" then Ok Common else Raise (no_field name)
  | Common =>
      if String.eqb name "compressed_tuple_"
      then if size_in_tuple im then Ok Tuple else Raise (no_field name)
      else if String.eqb name "capacity_" then Ok Capacity
      else if String.eqb name "control_" then Ok Control
      else if String.eqb name "slots_" then Ok Slots
      else Raise (no_field name)
  | Tuple => if String.eqb name "value" then Ok Size else Raise (no_field name)
  | Slot i =>
      if String.eqb name "first" then Ok (Key i)
      else if String.eqb name "key" then Ok (Key i)
      else if String.eqb name "second" then Ok (Mapped i)
      else if String.eqb name "value" then Ok (Pair i)
      else Raise (no_field name)
  | Pair i =>
      if String.eqb name "first" then Ok (Key i)
      else if String.eqb name "second" then Ok (Mapped i)
      else Raise (no_field name)
  | _ => Raise (no_field name)
  end.

Definition capacity (im : image) : Z := Z.of_nat (List.length (ctrl_bytes im)).

Definition read_int (im : image) (v : value) : result Z :=
  match v with
  | Size => Ok (size im)
  | Capacity => Ok (capacity im)
  | Ctrl i => Ok (nth (Z.to_nat i) (ctrl_bytes im) (-128))
  | _ => Raise (gdb_error "Cannot convert value to long.")
  end.

Definition oracle (im : image) : Oracle value type unit := {|
  gdb_lookup_type := lookup_default im;
  gdb_lookup_type_in := fun name _ => lookup_in_main name;
  gdb_global_block_of := fun _ => Ok tt;
  value_field := read_field im;
  value_index := fun v i =>
    match v with
    | Control => Ok (Ctrl i)
    | SlotArray => Ok (Slot i)
    | _ => Raise (gdb_error "Cannot subscript requested type.")
    end;
  value_cast := fun v t =>
    match v, t with
    | SettingsField, StorageType => Ok Storage
    | Slots, SlotPointer => Ok SlotArray
    | _, _ => Raise (gdb_error "Invalid cast.")
    end;
  value_int := read_int im;
  value_eq_int := fun v n =>
    match read_int im v with
    | Ok z => Ok (z =? n)
    | Raise e => Raise e
    end;
  value_dereference := fun v =>
    match v with
    | Slot i => Ok (Pointee i)
    | _ => Raise (gdb_error "Attempt to take contents of a non-pointer value.")
    end;
  value_str := fun v =>
    match read_int im v with
    | Ok z => Ok (Py.str_of_nat (Z.to_nat z))
    | Raise e => Raise e
    end;
  value_type := fun _ => TableType;
  type_strip_typedefs := fun t => Ok t;
  type_pointer := fun t =>
    match t with
    | SlotType => Ok SlotPointer
    | _ => Raise (gdb_error "no pointer type")
    end;
  type_template_argument := fun t n =>
    match t with
    | TableType => if n =? 0 then Ok IntType else Raise (gdb_error "No argument.")
    | _ => Raise (gdb_error "This is not a template type.")
    end;
  type_str := fun t =>
    match t with
    | TableType => Ok table_name
    | IntType => Ok "int"
    | _ => Ok "?"
    end;
  basic_type_tag := fun t =>
    match t with
    | TableType => Some table_name
    | _ => None
    end;
  type_name := fun t =>
    match t with
    | IntType => Some "int"
    | _ => None
    end
|}.

(** Capacity 7, control bytes [-1,-1,0,0,-1,0,-1], size 3. *)
Definition scenario : image := {|
  ctrl_bytes := [-1; -1; 0; 0; -1; 0; -1];
  size := 3;
  spaced_spelling := true;
  size_in_tuple := true;
  default_scope := true
|}.

(** The module's world once [MAIN_GLOBAL_BLOCK] has been given its [None]. *)
Definition initialised : World value type unit :=
  {| MAIN_GLOBAL_BLOCK := Bound None; trace := [] |}.

End Toy.

Definition toy_slot (i : nat) : Toy.value := Toy.Slot (Z.of_nat i).

(** Size 0, with control bytes that are all non-negative none the less. *)
Definition toy_empty : Toy.image := {|
  Toy.ctrl_bytes := [0; 0; 0];
  Toy.size := 0;
  Toy.spaced_spelling := true;
  Toy.size_in_tuple := true;
  Toy.default_scope := true
|}.

(** Capacity 0, with a size field that is not 0. *)
Definition toy_no_capacity : Toy.image := {|
  Toy.ctrl_bytes := [];
  Toy.size := 5;
  Toy.spaced_spelling := true;
  Toy.size_in_tuple := true;
  Toy.default_scope := true
|}.

(** Only the second spelling of the storage type is known. *)
Definition toy_unspaced : Toy.image := {|
  Toy.ctrl_bytes := [-1; -1; 0; 0; -1; 0; -1];
  Toy.size := 3;
  Toy.spaced_spelling := false;
  Toy.size_in_tuple := true;
  Toy.default_scope := true
|}.

(** No [compressed_tuple_] in the settings. *)
Definition toy_plain_size : Toy.image := {|
  Toy.ctrl_bytes := [-1; -1; 0; 0; -1; 0; -1];
  Toy.size := 3;
  Toy.spaced_spelling := true;
  Toy.size_in_tuple := false;
  Toy.default_scope := true
|}.

(** The slot type is known in main's global block only. *)
Definition toy_main_only : Toy.image := {|
  Toy.ctrl_bytes := [-1; -1; 0; 0; -1; 0; -1];
  Toy.size := 3;
  Toy.spaced_spelling := true;
  Toy.size_in_tuple := true;
  Toy.default_scope := false
|}.

(** * Vocabulary of the further properties *)

(** The entry [sp] is meant for the type name [tag]. *)
Definition entry_matches (tag : string) (sp : MongoSubPrettyPrinter) : Prop :=
  if is_template sp
  then closes_at_end tag /\ exists rest, tag = prefix sp ++ rest
  else tag = prefix sp.

(** The prefix [build_pretty_printer] registers each printer under. *)
Definition registered_prefix (p : Printer) : string :=
  match p with
  | AbslNodeHashMapPrinter => "absl::lts_20240116::node_hash_map"
  | AbslNodeHashSetPrinter => "absl::lts_20240116::node_hash_set"
  | AbslFlatHashMapPrinter => "absl::lts_20240116::flat_hash_map"
  | AbslFlatHashSetPrinter => "absl::lts_20240116::flat_hash_set"
  | BoostOptionalPrinter => "boost::optional"
  end.

Section FurtherVocabulary.

Context {Value GType Block : Type}.

(** The generator yields the values of [l], in order, and then ends as [r]
    says (normally, or raising), in whatever worlds it is resumed. *)
Inductive runs_to {A : Type}
  : list A -> result unit -> @GenStep Value GType Block A -> Prop :=
| runs_done w : runs_to [] (Ok tt) (Done w)
| runs_raised e w : runs_to [] (Raise e) (Raised e w)
| runs_yield a l r w next :
    (forall w', runs_to l r (next w')) -> runs_to (a :: l) r (Yielded a w next).

(** No element beyond index [bound] of any array is read. *)
Definition reads_up_to (bound : Z) (ev : Event Value GType Block) : bool :=
  match ev with
  | EvIndex _ k => k <=? bound
  | _ => true
  end.

(** What reading the cells of [l] logs, the first one first. *)
Definition cell_reads (data : Value) (cell : Z -> Value) (l : list Z)
  : list (Event Value GType Block) :=
  flat_map (fun i => [EvIndex data i; EvInt (cell i)]) l.

End FurtherVocabulary.

(** The small inferior with the control bytes unreadable from index
    [readable] on. *)
Definition toy_torn (im : Toy.image) (readable : Z) : Oracle Toy.value Toy.type unit :=
  let o := Toy.oracle im in
  {| gdb_lookup_type := gdb_lookup_type o;
     gdb_lookup_type_in := gdb_lookup_type_in o;
     gdb_global_block_of := gdb_global_block_of o;
     value_field := value_field o;
     value_index := fun v i =>
       match v with
       | Toy.Control =>
           if i <? readable then Ok (Toy.Ctrl i)
           else Raise (gdb_error "Cannot access memory at address 0x0")
       | _ => value_index o v i
       end;
     value_cast := value_cast o;
     value_int := value_int o;
     value_eq_int := value_eq_int o;
     value_dereference := value_dereference o;
     value_str := value_str o;
     value_type := value_type o;
     type_strip_typedefs := type_strip_typedefs o;
     type_pointer := type_pointer o;
     type_template_argument := type_template_argument o;
     type_str := type_str o;
     basic_type_tag := basic_type_tag o;
     type_name := type_name o |}.

(** ** Identifiers following the source's format *)

Definition lower_hex (c : ascii) : bool :=
  match Py.find "0123456789abcdef" (String c "") with
  | -1 => false
  | _ => true
  end.

(** The value of a hexadecimal digit in lower case. *)
Definition hex_value (c : ascii) : option Z :=
  if lower_hex c then Some (Py.find "0123456789abcdef" (String c "")) else None.

Fixpoint all_chars (P : ascii -> bool) (s : string) : bool :=
  match s with
  | EmptyString => true
  | String c s' => P c && all_chars P s'
  end.

(** Reading a text as pairs of hexadecimal digits, a byte for each pair. *)
Fixpoint decode_pairs (fuel : nat) (s : string) : option (list Z) :=
  match fuel, s with
  | _, EmptyString => Some []
  | S fuel', String c1 (String c2 s') =>
      match hex_value c1, hex_value c2, decode_pairs fuel' s' with
      | Some h, Some l, Some bytes => Some ((16 * h + l) :: bytes)
      | _, _, _ => None
      end
  | _, _ => None
  end.

(** An object identifier in the inferior: a value with 13 cells, cell [i]
    holding [content i]; cells from [readable] on cannot be read. *)
Module Identifier.

Inductive value : Type :=
| Data
| Cell (i : Z).

Definition unsupported {A} : result A := Raise (gdb_error "not supported").

Definition oracle (content : Z -> Z) (readable : Z) : Oracle value unit unit := {|
  gdb_lookup_type := fun _ => unsupported;
  gdb_lookup_type_in := fun _ _ => unsupported;
  gdb_global_block_of := fun _ => unsupported;
  value_field := fun _ _ => unsupported;
  value_index := fun v i =>
    match v with
    | Data =>
        if (0 <=? i) && (i <? readable) then Ok (Cell i)
        else Raise (gdb_error "Cannot access memory at address 0x0")
    | Cell _ => Raise (gdb_error "Cannot subscript requested type.")
    end;
  value_cast := fun _ _ => unsupported;
  value_int := fun v =>
    match v with
    | Cell i => Ok (content i)
    | Data => Raise (gdb_error "Cannot convert value to long.")
    end;
  value_eq_int := fun _ _ => unsupported;
  value_dereference := fun _ => unsupported;
  value_str := fun _ => unsupported;
  value_type := fun _ => tt;
  type_strip_typedefs := fun _ => unsupported;
  type_pointer := fun _ => unsupported;
  type_template_argument := fun _ _ => unsupported;
  type_str := fun _ => unsupported;
  basic_type_tag := fun _ => None;
  type_name := fun _ => None
|}.

(** Signed bytes: cell [i] holds [17 * i - 100]. *)
Definition content (i : Z) : Z := 17 * i - 100.

End Identifier.

(** What [extract_tenant_id] writes for one number. *)
Definition byte_text (b : Z) : string :=
  Py.zfill (Py.slice_from (Py.hex (Z.land b 0xFF)) 2) 2.

(** The text of [n] is two lower-case digits that read back as [n]. *)
Definition byte_text_ok (n : Z) : bool :=
  match byte_text n with
  | String c1 (String c2 EmptyString) =>
      match hex_value c1, hex_value c2 with
      | Some h, Some l => lower_hex c1 && lower_hex c2 && (16 * h + l =? n)
      | _, _ => false
      end
  | _ => false
  end.

(** * Properties *)

(** ** Python strings *)

Lemma append_assoc (a b c : string) : (a ++ b) ++ c = a ++ b ++ c.
Proof. induction a as [|x a IH]; simpl; [reflexivity | now rewrite IH]. Qed.

Lemma append_nil_r (a : string) : a ++ "" = a.
Proof. induction a as [|x a IH]; simpl; [reflexivity | now rewrite IH]. Qed.

Lemma length_append (a b : string) :
  String.length (a ++ b) = (String.length a + String.length b)%nat.
Proof. induction a as [|x a IH]; simpl; [reflexivity | now rewrite IH]. Qed.

Lemma take_app (a b : string) : Py.take (String.length a) (a ++ b) = a.
Proof. induction a as [|x a IH]; simpl; [now destruct b | now rewrite IH]. Qed.

Lemma drop_app (a b : string) : Py.drop (String.length a) (a ++ b) = b.
Proof. induction a as [|x a IH]; simpl; [now destruct b | exact IH]. Qed.

Lemma take_drop (n : nat) (s : string) : Py.take n s ++ Py.drop n s = s.
Proof.
  revert s; induction n as [|n IH]; intros [|c s]; simpl; try reflexivity.
  now rewrite IH.
Qed.

Lemma drop_app_le (n : nat) (a b : string) :
  (n <= String.length a)%nat -> Py.drop n (a ++ b) = Py.drop n a ++ b.
Proof.
  revert a; induction n as [|n IH]; intros [|c a] H; simpl in *;
    try reflexivity; try lia.
  apply IH; lia.
Qed.

Lemma length_drop (n : nat) (s : string) :
  String.length (Py.drop n s) = (String.length s - n)%nat.
Proof.
  revert s; induction n as [|n IH]; intros [|c s]; simpl; try reflexivity.
  apply IH.
Qed.

Lemma startswith_app (sub post : string) : Py.startswith (sub ++ post) sub = true.
Proof.
  induction sub as [|a sub IH]; simpl; [reflexivity |].
  now rewrite Ascii.eqb_refl, IH.
Qed.

Lemma startswith_inv (s sub : string) :
  Py.startswith s sub = true -> s = sub ++ Py.drop (String.length sub) s.
Proof.
  revert s; induction sub as [|a sub IH]; intros s H; simpl in *.
  - now destruct s.
  - destruct s as [|b s]; [discriminate |].
    apply andb_true_iff in H as [Hab H].
    apply Ascii.eqb_eq in Hab; subst b.
    simpl. f_equal. now apply IH.
Qed.

(** Only the first [length sub] characters matter. *)
Lemma startswith_app_long (u v sub : string) :
  (String.length sub <= String.length u)%nat ->
  Py.startswith (u ++ v) sub = Py.startswith u sub.
Proof.
  revert u; induction sub as [|a sub IH]; intros u H; simpl in *.
  - reflexivity.
  - destruct u as [|b u]; simpl in *; [lia |].
    rewrite IH by lia. reflexivity.
Qed.

(** A match that runs over the end of [y] fixes the character after [y]. *)
Lemma startswith_overrun (y r sub : string) :
  Py.startswith (y ++ r) sub = true ->
  (String.length y < String.length sub)%nat ->
  String.get (String.length y) sub = String.get 0 r.
Proof.
  revert sub; induction y as [|c y IH]; intros sub H Hlt; simpl in *.
  - destruct sub as [|a sub]; simpl in *; [lia |].
    destruct r as [|b r]; [discriminate |].
    apply andb_true_iff in H as [Hab _].
    apply Ascii.eqb_eq in Hab. now subst.
  - destruct sub as [|a sub]; simpl in *; [lia |].
    apply andb_true_iff in H as [_ H].
    apply IH; [exact H | lia].
Qed.

Lemma find_from_range (s sub : string) (i : Z) :
  Py.find_from s sub i = -1
  \/ (i <= Py.find_from s sub i <= i + Py.len s).
Proof.
  unfold Py.len. revert i; induction s as [|c s IH]; intros i; simpl.
  - destruct (Py.startswith "" sub); [right; lia | now left].
  - destruct (Py.startswith (String c s) sub); [right; lia |].
    destruct (IH (i + 1)) as [H | H]; [now left | right; lia].
Qed.

(** [find] returns the first place where [sub] starts. *)
Lemma find_from_first (pre sub post : string) (i : Z) :
  (forall j, (j < String.length pre)%nat ->
             Py.startswith (Py.drop j (pre ++ sub ++ post)) sub = false) ->
  Py.find_from (pre ++ sub ++ post) sub i = i + Py.len pre.
Proof.
  unfold Py.len. revert i; induction pre as [|c pre IH]; intros i H.
  - cbn [append String.length]. replace (i + Z.of_nat 0) with i by lia.
    destruct (sub ++ post) eqn:E; cbn [Py.find_from];
      rewrite <- E, startswith_app; reflexivity.
  - assert (H0 := H 0%nat). cbn [Py.drop] in H0.
    cbn [append Py.find_from String.length] in *.
    rewrite H0 by lia. rewrite IH.
    + lia.
    + intros j Hj. apply (H (S j)); lia.
Qed.

Lemma find_from_occurs (s sub : string) (i : Z) :
  0 <= i -> Py.find_from s sub i <> -1 -> occurs sub s.
Proof.
  revert i; induction s as [|c s IH]; intros i Hi H; cbn [Py.find_from] in H.
  - destruct (Py.startswith "" sub) eqn:E; [| congruence].
    exists "", (Py.drop (String.length sub) ""). now apply startswith_inv.
  - destruct (Py.startswith (String c s) sub) eqn:E.
    + exists "", (Py.drop (String.length sub) (String c s)).
      now apply startswith_inv.
    + destruct (IH (i + 1)) as (pre & post & ->); [lia | exact H |].
      now exists (String c pre), post.
Qed.

Lemma occurs_find_from (pre sub post : string) (i : Z) :
  0 <= i -> Py.find_from (pre ++ sub ++ post) sub i <> -1.
Proof.
  revert i; induction pre as [|c pre IH]; intros i Hi.
  - rewrite (find_from_first "" sub post i); [unfold Py.len; simpl; lia |].
    simpl; intros; lia.
  - cbn [append Py.find_from].
    destruct (Py.startswith _ sub); [lia | apply IH; lia].
Qed.

(** [s.find(sub) == -1] exactly when [sub] does not occur in [s]. *)
Lemma find_none_iff (s sub : string) : Py.find s sub = -1 <-> ~ occurs sub s.
Proof.
  unfold Py.find; split.
  - intros H (pre & post & ->). now apply (occurs_find_from pre sub post 0).
  - intros H. destruct (Z.eq_dec (Py.find_from s sub 0) (-1)) as [E | E]; [exact E |].
    exfalso. apply H. now apply (find_from_occurs s sub 0).
Qed.

(** [s.find(sub) == 0] exactly when [s] starts with [sub]. *)
Lemma find_zero_iff (s sub : string) :
  Py.find s sub = 0 <-> Py.startswith s sub = true.
Proof.
  unfold Py.find. destruct s as [|c s]; cbn [Py.find_from].
  - destruct (Py.startswith "" sub); split; congruence || lia.
  - destruct (Py.startswith (String c s) sub); [tauto |].
    split; [| discriminate].
    destruct (find_from_range s sub (0 + 1)); lia.
Qed.

(** ** Name insertion *)

Example insert_into_container_name :
  absl_insert_version_after_absl "absl::node_hash_map<K,V>"
  = Ok "absl::lts_20240116::node_hash_map<K,V>".
Proof. reflexivity. Qed.

(** No occurrence of [sub' ++ c] before the end of [pre] means that [find]
    sees none that starts inside [pre]. *)
Lemma no_early_start (pre sub' post : string) (c : ascii) :
  let sub := sub' ++ String c "" in
  ~ occurs sub (pre ++ sub') ->
  forall j, (j < String.length pre)%nat ->
            Py.startswith (Py.drop j (pre ++ sub ++ post)) sub = false.
Proof.
  intros sub Hno j Hj.
  destruct (Py.startswith _ sub) eqn:E; [exfalso | reflexivity].
  rewrite drop_app_le in E by lia.
  unfold sub in E at 1. rewrite append_assoc, <- (append_assoc _ sub') in E.
  rewrite startswith_app_long in E.
  - apply startswith_inv in E. apply Hno.
    exists (Py.take j pre), (Py.drop (String.length sub) (Py.drop j pre ++ sub')).
    rewrite <- E, <- append_assoc, take_drop. reflexivity.
  - unfold sub. rewrite !length_append, length_drop. simpl. lia.
Qed.

Lemma slices_at (a b : string) :
  Py.slice_to (a ++ b) (Py.len a) = a /\ Py.slice_from (a ++ b) (Py.len a) = b.
Proof.
  unfold Py.slice_to, Py.slice_from, Py.bound, Py.len.
  destruct (Z.ltb_spec (Z.of_nat (String.length a)) 0) as [H | H]; [lia |].
  rewrite Nat2Z.id. split; [apply take_app | apply drop_app].
Qed.

(** What insertion does to a name whose first root token follows [pre]. *)
Lemma insert_after_first (pre post : string) :
  root_first_after pre ->
  absl_insert_version_after_absl (pre ++ "absl::" ++ post)
  = Ok (pre ++ "absl::" ++ version_token ++ post).
Proof.
  intros Hfirst. unfold absl_insert_version_after_absl, Py.find.
  rewrite (find_from_first pre "absl::" post 0)
    by (apply (no_early_start pre "absl:" post ":"%char Hfirst)).
  destruct (Z.eqb_spec (0 + Py.len pre) (-1)) as [H | _];
    [unfold Py.len in H; lia |].
  replace (0 + Py.len pre + Py.len "absl::") with (Py.len (pre ++ "absl::"))
    by (unfold Py.len; rewrite length_append; simpl; lia).
  rewrite <- (append_assoc pre "absl::" post).
  destruct (slices_at (pre ++ "absl::") post) as [-> ->].
  unfold version_token. now rewrite !append_assoc.
Qed.

(** C7: a name in which the root token "absl::" does not occur is refused
    at once with a [ValueError] naming it.  That error is no [gdb.error]
    (the class of the not-found path), and where the name was on its way to
    a type lookup guarded by [except gdb.error], the lookup is never asked
    of the debugger (the log is unchanged) and the handler is not run. *)
Theorem absl_insert_rejects_rootless (cpp_name : string) :
  ~ occurs "absl::" cpp_name ->
  let err := ValueError ("No `absl` namespace found in " ++ cpp_name) in
  absl_insert_version_after_absl cpp_name = Raise err
  /\ is_gdb_error err = false
  /\ forall (Value GType Block : Type) (gdb : Oracle Value GType Block)
            (handler : exn -> M GType) (w : World Value GType Block),
       try_except (n <- lift (absl_insert_version_after_absl cpp_name) ;;
                   gdb_lookup gdb n)
                  is_gdb_error handler w
       = (Raise err, w).
Proof.
  intros Hno err.
  assert (E : absl_insert_version_after_absl cpp_name = Raise err).
  { unfold absl_insert_version_after_absl.
    apply find_none_iff in Hno. rewrite Hno. reflexivity. }
  split; [exact E | split; [reflexivity |]].
  intros. unfold try_except, bind, lift. rewrite E. reflexivity.
Qed.

Lemma absl_insert_rejects_rootless_witness :
  absl_insert_version_after_absl "std::vector<int>"
  = Raise (ValueError "No `absl` namespace found in std::vector<int>").
Proof.
  refine (proj1 (absl_insert_rejects_rootless "std::vector<int>" _)).
  apply find_none_iff. reflexivity.
Defined.

(** C3 (as the spec states it) fails: in the spec's own example only the
    outer root token is re-qualified, the nested [absl::Pair] is not. *)
Lemma nested_root_not_requalified :
  absl_insert_version_after_absl "absl::node_hash_map<absl::Pair<K,V>,V>"
  = Ok "absl::lts_20240116::node_hash_map<absl::Pair<K,V>,V>"
  /\ every_root_versioned "absl::lts_20240116::node_hash_map<absl::Pair<K,V>,V>"
     = false.
Proof. split; reflexivity. Qed.

(** C3 (amended): insertion re-qualifies the first occurrence of the root
    token only.  For a name [pre ++ "absl::" ++ post] whose first root token
    follows [pre], the result is [pre ++ "absl::lts_20240116::" ++ post]: the
    text [post], nested template arguments included, is left as it is.  A
    nested occurrence is re-qualified when the caller inserts into the
    bracketed substring on its own, as [absl_get_settings] does for its
    first candidate spelling (and does not for its second). *)
Theorem absl_insert_first_occurrence_only (pre post : string) :
  root_first_after pre ->
  absl_insert_version_after_absl (pre ++ "absl::" ++ post)
  = Ok (pre ++ "absl::" ++ "lts_20240116::" ++ post)
  /\ (forall (Value GType Block : Type) (w : World Value GType Block),
        exists n1 n2,
          first_candidate w = (Ok n1, w) /\ every_root_versioned n1 = true
          /\ second_candidate w = (Ok n2, w) /\ every_root_versioned n2 = false).
Proof.
  intros H. split; [now apply insert_after_first |].
  intros. do 2 eexists. repeat split; reflexivity.
Qed.

Lemma absl_insert_first_occurrence_only_witness :
  absl_insert_version_after_absl ("" ++ "absl::" ++ "node_hash_map<absl::Pair<K,V>,V>")
  = Ok ("" ++ "absl::" ++ "lts_20240116::" ++ "node_hash_map<absl::Pair<K,V>,V>").
Proof.
  refine (proj1 (absl_insert_first_occurrence_only "" "node_hash_map<absl::Pair<K,V>,V>" _)).
  apply (proj1 (find_none_iff _ _)). reflexivity.
Defined.

(** ** Round trip *)

(** The version token has its two colons at 12 and 13 only. *)
Lemma colon_in_token (n : nat) :
  (n < 13)%nat -> String.get n version_token = Some ":"%char -> n = 12%nat.
Proof.
  intros Hn H.
  do 13 (destruct n as [|n]; [first [reflexivity | discriminate H] |]).
  lia.
Qed.

(** After a text that ends in a colon, the token cannot start early and run
    into a copy of itself. *)
Lemma token_not_across (y post : string) :
  (String.length y < 13)%nat ->
  Py.startswith ((y ++ ":") ++ version_token ++ post) version_token = false.
Proof.
  intros Hy. destruct (Py.startswith _ _) eqn:E; [exfalso | reflexivity].
  assert (E1 := E). rewrite append_assoc in E1.
  apply startswith_overrun in E1; [| simpl; lia].
  apply colon_in_token in E1; [| exact Hy].
  apply startswith_overrun in E; [| rewrite length_append; simpl; lia].
  rewrite length_append, E1 in E. discriminate E.
Qed.

Lemma no_early_token (p post : string) :
  ~ occurs version_token (p ++ ":") ->
  forall j, (j < String.length (p ++ ":"))%nat ->
    Py.startswith (Py.drop j ((p ++ ":") ++ version_token ++ post)) version_token
    = false.
Proof.
  intros Hno j Hj. rewrite length_append in Hj; simpl in Hj.
  rewrite drop_app_le by (rewrite length_append; simpl; lia).
  rewrite (drop_app_le j p ":") by lia.
  destruct (Nat.lt_ge_cases (String.length (Py.drop j p)) 13) as [Hy | Hy].
  - now apply token_not_across.
  - destruct (Py.startswith _ _) eqn:E; [exfalso | reflexivity].
    rewrite startswith_app_long in E by (rewrite length_append; simpl; lia).
    apply startswith_inv in E. apply Hno.
    exists (Py.take j p), (Py.drop (String.length version_token) (Py.drop j p ++ ":")).
    rewrite <- E, <- append_assoc, take_drop. reflexivity.
Qed.

(** Stripping finds the token where insertion put it. *)
Lemma strip_inserted (p post : string) :
  ~ occurs version_token (p ++ ":") ->
  spec_strip_version ((p ++ ":") ++ version_token ++ post) = (p ++ ":") ++ post.
Proof.
  intros Hno. unfold spec_strip_version, Py.find.
  rewrite (find_from_first (p ++ ":") version_token post 0)
    by (now apply no_early_token).
  destruct (Z.eqb_spec (0 + Py.len (p ++ ":")) (-1)) as [H | _];
    [unfold Py.len in H; lia |].
  replace (0 + Py.len (p ++ ":")) with (Py.len (p ++ ":")) by lia.
  destruct (slices_at (p ++ ":") (version_token ++ post)) as [-> _].
  replace (Py.len (p ++ ":") + Py.len version_token)
    with (Py.len ((p ++ ":") ++ version_token))
    by (unfold Py.len; rewrite (length_append (p ++ ":")); lia).
  rewrite <- (append_assoc (p ++ ":") version_token post).
  destruct (slices_at ((p ++ ":") ++ version_token) post) as [_ ->].
  reflexivity.
Qed.

(** C9 (as the spec states it) fails: when the version token already stands
    before the root token, the search finds that earlier copy, and what is
    left after the removal is not the input. *)
Lemma roundtrip_fails_on_earlier_token :
  absl_insert_version_after_absl "lts_20240116::absl::X"
  = Ok "lts_20240116::absl::lts_20240116::X"
  /\ spec_strip_version "lts_20240116::absl::lts_20240116::X"
     = "absl::lts_20240116::X"
  /\ spec_strip_version "lts_20240116::absl::lts_20240116::X"
     <> "lts_20240116::absl::X".
Proof. repeat split; try reflexivity. discriminate. Qed.

(** C9 (amended): round trip, for a name that contains the root token and in
    which the version token "lts_20240116::" does not occur in the text up to
    and including the first root token.  Writing the name as
    [pre ++ "absl::" ++ post] with its first root token after [pre],
    insertion succeeds, and cutting the first occurrence of the version
    token out of the result gives the name back, whatever [post] holds
    (nested root tokens included). *)
Theorem insert_then_strip (pre post : string) :
  root_first_after pre ->
  ~ occurs version_token (pre ++ "absl::") ->
  exists out,
    absl_insert_version_after_absl (pre ++ "absl::" ++ post) = Ok out
    /\ spec_strip_version out = pre ++ "absl::" ++ post.
Proof.
  intros Hfirst Hno.
  exists (pre ++ "absl::" ++ version_token ++ post).
  split; [now apply insert_after_first |].
  change "absl::" with ("absl:" ++ ":") in *.
  rewrite <- !(append_assoc pre ("absl:" ++ ":")).
  rewrite <- !(append_assoc pre "absl:" ":") in *.
  now apply strip_inserted.
Qed.

Lemma insert_then_strip_witness :
  exists out,
    absl_insert_version_after_absl
      ("" ++ "absl::" ++ "node_hash_map<absl::Pair<K,V>,V>") = Ok out
    /\ spec_strip_version out = "" ++ "absl::" ++ "node_hash_map<absl::Pair<K,V>,V>".
Proof.
  apply (insert_then_strip "" "node_hash_map<absl::Pair<K,V>,V>");
    apply (proj1 (find_none_iff _ _)); reflexivity.
Defined.

(** ** Bracket matching *)

(** The example of the docstring. *)
Example find_match_brackets_docstring :
  find_match_brackets "Foo<T>::iterator<U>" = 5.
Proof. reflexivity. Qed.

Lemma range_cons (start stop : Z) :
  start < stop -> Py.range start stop = start :: Py.range (start + 1) stop.
Proof.
  intros H. unfold Py.range.
  replace (Z.to_nat (stop - start)) with (S (Z.to_nat (stop - (start + 1)))) by lia.
  cbn [seq map]. f_equal; [lia |].
  rewrite <- seq_shift, map_map. apply map_ext. intros; lia.
Qed.

Lemma range_nil (start stop : Z) : stop <= start -> Py.range start stop = [].
Proof.
  intros H. unfold Py.range. now replace (Z.to_nat (stop - start)) with 0%nat by lia.
Qed.

Lemma get_app (pre rest : string) (c : ascii) :
  String.get (String.length pre) (pre ++ String c rest) = Some c.
Proof. induction pre as [|x pre IH]; simpl; [reflexivity | exact IH]. Qed.

Lemma item_app (pre rest : string) (c : ascii) :
  Py.item (pre ++ String c rest) (Py.len pre) = Some (String c "").
Proof.
  unfold Py.item, Py.len. rewrite length_append, Nat2Z.id, get_app. simpl.
  destruct (Z.leb_spec 0 (Z.of_nat (String.length pre))); [| lia].
  destruct (Z.ltb_spec (Z.of_nat (String.length pre))
                       (Z.of_nat (String.length pre + S (String.length rest))));
    [reflexivity | lia].
Qed.

Lemma one_char_step (c : ascii) (count : Z) :
  (if String.eqb (String c "") "<" then count + 1
   else if String.eqb (String c "") ">" then count - 1 else count)
  = count + bracket_step c.
Proof.
  unfold bracket_step. cbn [String.eqb].
  destruct (Ascii.eqb c "<"); [reflexivity |].
  destruct (Ascii.eqb c ">"); cbn; lia.
Qed.

Lemma loop_is_scan (rest pre : string) (count : Z) :
  find_match_loop (pre ++ rest) "<" ">"
                  (Py.range (Py.len pre) (Py.len (pre ++ rest))) count
  = scan rest (Py.len pre) count.
Proof.
  revert pre count; induction rest as [|c rest IH]; intros pre count.
  - rewrite range_nil by (rewrite append_nil_r; lia). reflexivity.
  - rewrite range_cons by (unfold Py.len; rewrite length_append; simpl; lia).
    cbn [find_match_loop scan]. rewrite item_app, one_char_step.
    destruct (count + bracket_step c =? 0); [reflexivity |].
    specialize (IH (pre ++ String c "") (count + bracket_step c)).
    rewrite append_assoc in IH. cbn [append] in IH.
    replace (Py.len (pre ++ String c "")) with (Py.len pre + 1) in IH
      by (unfold Py.len; rewrite length_append; simpl; lia).
    exact IH.
Qed.

Lemma scan_closes (body post : string) (index count : Z) :
  1 <= count ->
  balanced_from (count - 1) body = true ->
  scan (body ++ ">" ++ post) index count = index + Py.len body.
Proof.
  unfold Py.len. revert index count; induction body as [|c body IH];
    intros index count Hc H; cbn [balanced_from append scan String.length] in *.
  - apply Z.eqb_eq in H. replace (count + bracket_step ">") with 0
      by (unfold bracket_step; simpl; lia).
    simpl. lia.
  - apply andb_true_iff in H as [H0 H]. apply Z.leb_le in H0.
    destruct (Z.eqb_spec (count + bracket_step c) 0) as [E | _]; [lia |].
    rewrite IH.
    + lia.
    + lia.
    + now replace (count + bracket_step c - 1) with (count - 1 + bracket_step c) by lia.
Qed.

Lemma bracket_step_cases (c : ascii) :
  (c = ">"%char /\ bracket_step c = -1) \/ (0 <= bracket_step c).
Proof.
  unfold bracket_step. destruct (Ascii.eqb c "<"); [right; lia |].
  destruct (Ascii.eqb_spec c ">"); [left; now split | right; lia].
Qed.

Lemma scan_found (rest : string) (index count j : Z) :
  1 <= count ->
  scan rest index count = j -> j <> -1 ->
  exists body post,
    rest = body ++ ">" ++ post
    /\ balanced_from (count - 1) body = true
    /\ j = index + Py.len body.
Proof.
  unfold Py.len. revert index count; induction rest as [|c rest IH];
    intros index count Hc H Hj; cbn [scan] in H; [congruence |].
  destruct (Z.eqb_spec (count + bracket_step c) 0) as [E | E].
  - destruct (bracket_step_cases c) as [[-> Hs] | Hs]; [| lia].
    exists "", rest. cbn. repeat split; [apply Z.eqb_eq; lia | lia].
  - assert (Hs : 0 <= count - 1 + bracket_step c)
      by (destruct (bracket_step_cases c) as [[_ Hs] | Hs]; lia).
    destruct (IH (index + 1) (count + bracket_step c)) as (body & post & -> & Hb & ->);
      [lia | exact H | exact Hj |].
    exists (String c body), post. cbn [append balanced_from String.length].
    repeat split.
    + apply andb_true_iff. split; [now apply Z.leb_le |].
      now replace (count - 1 + bracket_step c) with (count + bracket_step c - 1) by lia.
    + lia.
Qed.

(** Where [find] finds [sub], it stands, and it starts nowhere before. *)
Lemma find_from_found (s sub : string) (i k : Z) :
  Py.find_from s sub i = k -> k <> -1 -> 0 <= i ->
  exists pre post,
    s = pre ++ sub ++ post /\ k = i + Py.len pre
    /\ forall j, (j < String.length pre)%nat ->
                 Py.startswith (Py.drop j s) sub = false.
Proof.
  unfold Py.len. revert i; induction s as [|c s IH]; intros i H Hk Hi;
    cbn [Py.find_from] in H.
  - destruct (Py.startswith "" sub) eqn:E; [| congruence].
    exists "", (Py.drop (String.length sub) ""). cbn [append String.length].
    repeat split; [now apply startswith_inv | lia | intros; lia].
  - destruct (Py.startswith (String c s) sub) eqn:E.
    + exists "", (Py.drop (String.length sub) (String c s)).
      cbn [append String.length].
      repeat split; [now apply startswith_inv | lia | intros; lia].
    + destruct (IH (i + 1)) as (pre & post & -> & -> & Hfirst); [exact H | exact Hk | lia |].
      exists (String c pre), post. cbn [append String.length].
      repeat split; [lia |].
      intros [|j] Hj; cbn [Py.drop]; [exact E | apply Hfirst; lia].
Qed.

Lemma no_start_no_char (pre rest : string) (c : ascii) :
  (forall j, (j < String.length pre)%nat ->
             Py.startswith (Py.drop j (pre ++ rest)) (String c "") = false) ->
  ~ occurs (String c "") pre.
Proof.
  intros H (a & b & ->).
  specialize (H (String.length a)).
  rewrite append_assoc, drop_app in H. cbn in H.
  rewrite Ascii.eqb_refl in H. rewrite length_append in H. simpl in H.
  assert (true = false) by (apply H; lia). discriminate.
Qed.

(** [find_match_brackets] returns the index of the ">" that closes the first
    "<", and [-1] when there is none. *)
Lemma find_match_brackets_spec (s : string) (j : Z) :
  (find_match_brackets s = j /\ 0 <= j) <-> closes_first_open s j.
Proof.
  unfold find_match_brackets, find_match_brackets_with, closes_first_open. split.
  - intros [H Hj].
    destruct (Z.eqb_spec (Py.find s "<") (-1)) as [E | E]; [lia |].
    destruct (find_from_found s "<" 0 _ eq_refl E) as (pre & rest & -> & Ek & Hfirst);
      [lia |].
    unfold Py.find in H. rewrite Ek in H.
    rewrite <- (append_assoc pre "<" rest) in H.
    replace (0 + Py.len pre + 1) with (Py.len (pre ++ "<")) in H
      by (unfold Py.len; rewrite length_append; simpl; lia).
    rewrite loop_is_scan in H.
    destruct (scan_found rest _ 1 j ltac:(lia) H ltac:(lia)) as (body & post & -> & Hb & ->).
    exists pre, body, post. repeat split.
    + now apply (no_start_no_char pre ("<" ++ body ++ ">" ++ post)).
    + exact Hb.
    + unfold Py.len; rewrite length_append; simpl; lia.
  - intros (pre & body & post & -> & Hno & Hb & ->).
    assert (Ef : Py.find (pre ++ "<" ++ body ++ ">" ++ post) "<" = Py.len pre).
    { unfold Py.find. rewrite (find_from_first pre "<" _ 0); [lia |].
      apply (no_early_start pre "" _ "<"%char). now rewrite append_nil_r. }
    rewrite Ef.
    destruct (Z.eqb_spec (Py.len pre) (-1)) as [E | _]; [unfold Py.len in E; lia |].
    rewrite <- (append_assoc pre "<").
    replace (Py.len pre + 1) with (Py.len (pre ++ "<"))
      by (unfold Py.len; rewrite length_append; simpl; lia).
    rewrite loop_is_scan, scan_closes by (try lia; exact Hb).
    unfold Py.len; rewrite length_append; simpl; lia.
Qed.

Lemma find_match_brackets_range (s : string) :
  find_match_brackets s = -1
  \/ (0 <= find_match_brackets s < Py.len s).
Proof.
  destruct (Z.eq_dec (find_match_brackets s) (-1)) as [E | E]; [now left | right].
  unfold find_match_brackets, find_match_brackets_with in *.
  destruct (Z.eqb_spec (Py.find s "<") (-1)) as [E0 | E0]; [congruence |].
  destruct (find_from_found s "<" 0 _ eq_refl E0) as (pre & rest & -> & Ek & _); [lia |].
  unfold Py.find in *. rewrite Ek in *.
  rewrite <- (append_assoc pre "<" rest) in *.
  replace (0 + Py.len pre + 1) with (Py.len (pre ++ "<")) in *
      by (unfold Py.len; rewrite length_append; simpl; lia).
  rewrite loop_is_scan in *.
  destruct (scan_found rest _ 1 _ ltac:(lia) eq_refl E) as (body & post & -> & _ & ->).
  unfold Py.len. rewrite !length_append. simpl. lia.
Qed.

(** ** Printer dispatcher *)

Lemma length_zero_empty (s : string) : String.length s = 0%nat -> s = "".
Proof. destruct s; [reflexivity | discriminate]. Qed.

Lemma closes_at_end_iff (tag : string) :
  closes_at_end tag
  <-> find_match_brackets tag + 1 = Py.len tag /\ tag <> "".
Proof.
  split.
  - intros (pre & body & -> & Hno & Hb).
    destruct (proj2 (find_match_brackets_spec
                       (pre ++ "<" ++ body ++ ">") (Py.len pre + 1 + Py.len body)))
      as [E _].
    { exists pre, body, "". now repeat split. }
    rewrite E. unfold Py.len. rewrite !length_append. simpl. split; [lia |].
    destruct pre; discriminate.
  - intros [E Hne].
    assert (Hlen : 0 < Py.len tag).
    { unfold Py.len. destruct tag; [congruence | simpl; lia]. }
    destruct (proj1 (find_match_brackets_spec tag (find_match_brackets tag)))
      as (pre & body & post & Et & Hno & Hb & Ej); [split; [reflexivity | lia] |].
    exists pre, body. repeat split; [| exact Hno | exact Hb].
    assert (post = "") as ->; [| exact Et].
    apply length_zero_empty. rewrite Et in E at 2.
    unfold Py.len in *. rewrite !length_append in E. simpl in E. lia.
Qed.

Lemma startswith_iff (s sub : string) :
  Py.startswith s sub = true <-> exists rest, s = sub ++ rest.
Proof.
  split; [intros H; eexists; now apply startswith_inv |].
  intros (rest & ->). apply startswith_app.
Qed.

(** C2 (as the spec states it) fails: the entry for "lib::Map" is chosen for
    a value of type "lib::MapExtra<int>", where the text up to the first "<"
    is "lib::MapExtra" and not the registered prefix. *)
Lemma longer_name_is_matched :
  call_tag [templated "Map" "lib::Map" AbslFlatHashMapPrinter]
           (Some "lib::MapExtra<int>") tt
  = Some (AbslFlatHashMapPrinter, tt)
  /\ Py.slice_to "lib::MapExtra<int>" (Py.find "lib::MapExtra<int>" "<")
     = "lib::MapExtra"
  /\ "lib::MapExtra" <> "lib::Map".
Proof. repeat split; try reflexivity. discriminate. Qed.

(** C2 (amended): for every type name and every registered templated prefix,
    the dispatcher matches iff the closing bracket that pairs the first "<"
    is the last character of the name and the name starts with the
    registered prefix.  So the prefix "lib::Map" matches
    "lib::Map<int,int>", does not match "lib::Map<int,int>::iterator", and
    matches "lib::MapExtra<int>" as well. *)
Theorem dispatch_templated
        (Value : Type) (nm pfx : string) (pr : Printer) (tag : string) (val : Value) :
  (call_tag [templated nm pfx pr] (Some tag) val = Some (pr, val)
   <-> closes_at_end tag /\ exists rest, tag = pfx ++ rest)
  /\ (call_tag [templated nm pfx pr] (Some tag) val = None
      <-> ~ (closes_at_end tag /\ exists rest, tag = pfx ++ rest))
  /\ call_tag [templated nm "lib::Map" pr] (Some "lib::Map<int,int>") val
     = Some (pr, val)
  /\ call_tag [templated nm "lib::Map" pr] (Some "lib::Map<int,int>::iterator") val
     = None
  /\ call_tag [templated nm "lib::Map" pr] (Some "lib::MapExtra<int>") val
     = Some (pr, val).
Proof.
  assert (H : call_tag [templated nm pfx pr] (Some tag) val
              = if (negb (String.eqb tag ""))
                   && ((find_match_brackets tag + 1 =? Py.len tag)
                       && (Py.find tag pfx =? 0))
                then Some (pr, val) else None).
  { unfold call_tag, falsy. destruct (String.eqb tag ""); [reflexivity |].
    cbn. now destruct (_ && _). }
  assert (C : (negb (String.eqb tag ""))
              && ((find_match_brackets tag + 1 =? Py.len tag)
                  && (Py.find tag pfx =? 0)) = true
              <-> closes_at_end tag /\ exists rest, tag = pfx ++ rest).
  { rewrite closes_at_end_iff, <- startswith_iff, <- find_zero_iff.
    rewrite !andb_true_iff, negb_true_iff, !Z.eqb_eq, String.eqb_neq. tauto. }
  split; [| split; [| repeat split; reflexivity]]; rewrite H; clear H;
    destruct (_ && _).
  - split; [intros _; now apply C | reflexivity].
  - split; [discriminate | intros HP; apply C in HP; discriminate].
  - split; [discriminate | intros HN; exfalso; apply HN; now apply C].
  - split; [intros _ HP; apply C in HP; discriminate | reflexivity].
Qed.

(** ** The table accessor and the name resolver *)

Section Accessor.

Context {Value GType Block : Type} (gdb : Oracle Value GType Block).

Implicit Types w : World Value GType Block.

Lemma first_candidate_is w : first_candidate w = (Ok first_spelling, w).
Proof. reflexivity. Qed.

Lemma second_candidate_is w : second_candidate w = (Ok second_spelling, w).
Proof. reflexivity. Qed.

(** C4: when the lookup of the first candidate spelling fails with a
    [gdb.error] whose message starts with "No type named ", the second
    spelling is looked up, and if that lookup succeeds the call goes on to
    read the settings with the type found: it raises nothing on account of
    the lookup, and returns the settings when the fields can be read.  Any
    other failure of the first lookup is raised as it is, after that one
    lookup only. *)
Theorem settings_spelling_fallback (val : Value) w :
  (forall msg ty,
      gdb_lookup_type gdb first_spelling = Raise (gdb_error msg) ->
      Py.startswith msg "No type named " = true ->
      gdb_lookup_type gdb second_spelling = Ok ty ->
      absl_get_settings gdb val w
      = read_settings gdb val ty
          (log (EvLookupType second_spelling) (log (EvLookupType first_spelling) w))
      /\ forall s c v,
          value_field gdb val "settings_" = Ok s ->
          value_cast gdb s ty = Ok c ->
          value_field gdb c "value" = Ok v ->
          fst (absl_get_settings gdb val w) = Ok v)
  /\ (forall e,
         gdb_lookup_type gdb first_spelling = Raise e ->
         is_gdb_error e = false
         \/ Py.startswith (str_exn e) "No type named " = false ->
         absl_get_settings gdb val w = (Raise e, log (EvLookupType first_spelling) w)).
Proof.
  split.
  - intros msg ty H1 Hmsg H2.
    assert (E : absl_get_settings gdb val w
                = read_settings gdb val ty
                    (log (EvLookupType second_spelling)
                         (log (EvLookupType first_spelling) w))).
    { unfold absl_get_settings, try_except, bind at 1 2.
      rewrite first_candidate_is. unfold gdb_lookup at 1, ask at 1.
      rewrite H1. cbn [is_gdb_error str_exn]. rewrite Hmsg. cbn [negb].
      unfold bind at 1. rewrite second_candidate_is.
      unfold gdb_lookup, ask. rewrite H2. reflexivity. }
    split; [exact E |].
    intros s c v Hs Hc Hv. rewrite E.
    unfold read_settings, bind, field, cast, ask. rewrite Hs, Hc, Hv. reflexivity.
  - intros e H1 He.
    unfold absl_get_settings, try_except, bind at 1 2.
    rewrite first_candidate_is. unfold gdb_lookup at 1, ask at 1. rewrite H1.
    destruct He as [He | He].
    + rewrite He. reflexivity.
    + destruct (is_gdb_error e); [| reflexivity].
      rewrite He. reflexivity.
Qed.

(** C10: whenever reading [settings["compressed_tuple_"]["value"]] raises,
    whatever the exception, [absl_container_size] gives what reading
    [settings["capacity_"]] gives.  The count in a printer's summary is then
    the text of that capacity field, and the walker's test for an empty table
    is made on it. *)
Theorem container_size_is_capacity (settings : Value) (e : exn) :
  value_field gdb settings "compressed_tuple_" = Raise e
  \/ (exists t, value_field gdb settings "compressed_tuple_" = Ok t
                /\ value_field gdb t "value" = Raise e) ->
  (forall w, fst (absl_container_size gdb settings w)
             = value_field gdb settings "capacity_")
  /\ (forall val cap arg0 s0 n kind w,
         answers (absl_get_settings gdb val) settings ->
         value_field gdb settings "capacity_" = Ok cap ->
         type_template_argument gdb (value_type gdb val) 0 = Ok arg0 ->
         type_str gdb arg0 = Ok s0 ->
         value_str gdb cap = Ok n ->
         fst (hash_set_to_string gdb kind val w)
         = Ok ("absl::" ++ kind ++ "_hash_set<" ++ s0 ++ "> with " ++ n ++ " elems ")
         /\ forall arg1 s1,
             type_template_argument gdb (value_type gdb val) 1 = Ok arg1 ->
             type_str gdb arg1 = Ok s1 ->
             fst (hash_map_to_string gdb kind val w)
             = Ok ("absl::" ++ kind ++ "_hash_map<" ++ s0 ++ ", " ++ s1 ++ "> with "
                   ++ n ++ " elems "))
  /\ (forall val cap w,
         answers (absl_get_settings gdb val) settings ->
         value_field gdb settings "capacity_" = Ok cap ->
         value_eq_int gdb cap 0 = Ok true ->
         yielded (absl_get_nodes gdb val) w = []
         /\ outcome (absl_get_nodes gdb val) w = Ok tt).
Proof.
  intros H.
  assert (S : forall w, exists w',
               absl_container_size gdb settings w
               = (value_field gdb settings "capacity_", w')).
  { intros w. unfold absl_container_size, try_except, bind, field, ask.
    destruct H as [H | (t & H & Ht)]; rewrite H; [| rewrite Ht]; eexists; reflexivity. }
  split; [| split].
  - intros w. destruct (S w) as [w' ->]. reflexivity.
  - intros val cap arg0 s0 n kind w Hset Hcap Harg Hs0 Hn.
    specialize (Hset w). split; [| intros arg1 s1 Harg1 Hs1].
    + unfold hash_set_to_string, bind at 1, lift at 1. rewrite Harg.
      unfold bind at 1.
      destruct (absl_get_settings gdb val w) as [r w1]. simpl in Hset; subst r.
      unfold bind at 1. destruct (S w1) as [w2 ->]. rewrite Hcap.
      unfold bind, lift, str, ask, ret. rewrite Hs0, Hn. reflexivity.
    + unfold hash_map_to_string, bind at 1, lift at 1. rewrite Harg.
      unfold bind at 1, lift at 1. rewrite Harg1.
      unfold bind at 1.
      destruct (absl_get_settings gdb val w) as [r w1]. simpl in Hset; subst r.
      unfold bind at 1. destruct (S w1) as [w2 ->]. rewrite Hcap.
      unfold bind, lift, str, ask, ret. rewrite Hs0, Hs1, Hn. reflexivity.
  - intros val cap w Hset Hcap Hz.
    assert (D : exists w', drain (absl_get_nodes gdb val) w = ([], Ok tt, w')).
    { unfold drain, absl_get_nodes, gen_do at 1.
      specialize (Hset w).
      destruct (absl_get_settings gdb val w) as [r w1]. simpl in Hset; subst r.
      unfold gen_do at 1. destruct (S w1) as [w2 ->]. rewrite Hcap.
      unfold gen_do, eq_int, ask. rewrite Hz. eexists; reflexivity. }
    destruct D as [w' D]. unfold yielded, outcome. rewrite D. split; reflexivity.
Qed.

(** C6, at the input the code fails on: right after the file is loaded
    [MAIN_GLOBAL_BLOCK] is unbound, so when the default lookup fails the
    test [MAIN_GLOBAL_BLOCK is None] raises a [NameError]; no second lookup
    is made, whatever it would find, and the error raised does not carry the
    failure of the first one. *)
Theorem lookup_type_unbound_global (name : string) (e : exn) (tr : list (Event Value GType Block)) :
  gdb_lookup_type gdb name = Raise e ->
  is_Exception e = true ->
  lookup_type gdb name {| MAIN_GLOBAL_BLOCK := Unbound; trace := tr |}
  = (Raise (NameError "MAIN_GLOBAL_BLOCK"),
     {| MAIN_GLOBAL_BLOCK := Unbound; trace := EvLookupType name :: tr |}).
Proof.
  intros H He. unfold lookup_type, try_except, gdb_lookup at 1, ask at 1.
  rewrite H, He. reflexivity.
Qed.

End Accessor.

(** ** What a run adds to the log *)

Section Logs.

Context {Value GType Block : Type} (gdb : Oracle Value GType Block).

Implicit Types w : World Value GType Block.
Implicit Types P : Event Value GType Block -> bool.

Lemma extends_refl P w : extends P w w.
Proof. now exists []. Qed.

Lemma extends_trans P w1 w2 w3 :
  extends P w1 w2 -> extends P w2 w3 -> extends P w1 w3.
Proof.
  intros (e1 & H1 & F1) (e2 & H2 & F2). exists (e2 ++ e1)%list.
  rewrite H2, H1, app_assoc, forallb_app, F1, F2. now split.
Qed.

Lemma extends_log P ev w : P ev = true -> extends P w (log ev w).
Proof. intros H. exists [ev]. simpl. now rewrite H. Qed.

Lemma logs_ret {A} P (a : A) : logs P (ret a).
Proof. intros w. apply extends_refl. Qed.

Lemma logs_raise {A} P e : logs P (raise (A:=A) e).
Proof. intros w. apply extends_refl. Qed.

Lemma logs_lift {A} P (r : result A) : logs P (lift r).
Proof. intros w. apply extends_refl. Qed.

Lemma logs_ask {A} P ev (r : result A) : P ev = true -> logs P (ask ev r).
Proof. intros H w. now apply extends_log. Qed.

Lemma logs_bind {A B} P (m : @M Value GType Block A) (k : A -> @M Value GType Block B) :
  logs P m -> (forall a, logs P (k a)) -> logs P (bind m k).
Proof.
  intros Hm Hk w. unfold bind. specialize (Hm w).
  destruct (m w) as [[a | e] w1]; simpl in *; [| exact Hm].
  eapply extends_trans; [exact Hm | apply Hk].
Qed.

Lemma logs_try {A} P (m : @M Value GType Block A) catches (h : exn -> @M Value GType Block A) :
  logs P m -> (forall e, logs P (h e)) -> logs P (try_except m catches h).
Proof.
  intros Hm Hh w. unfold try_except. specialize (Hm w).
  destruct (m w) as [[a | e] w1]; simpl in *; [exact Hm |].
  destruct (catches e); [| exact Hm].
  eapply extends_trans; [exact Hm | apply Hh].
Qed.

Lemma logs_get P : logs P get_MAIN_GLOBAL_BLOCK.
Proof.
  intros w. unfold get_MAIN_GLOBAL_BLOCK.
  destruct (MAIN_GLOBAL_BLOCK w); apply extends_refl.
Qed.

Lemma logs_set P b : logs P (set_MAIN_GLOBAL_BLOCK b).
Proof. intros w. now exists []. Qed.

Lemma keeps_ret {A} (a : A) : @keeps Value GType Block A (ret a).
Proof. now intros w. Qed.

Lemma keeps_raise {A} e : @keeps Value GType Block A (raise e).
Proof. now intros w. Qed.

Lemma keeps_lift {A} (r : result A) : @keeps Value GType Block A (lift r).
Proof. now intros w. Qed.

Lemma keeps_ask {A} ev (r : result A) : @keeps Value GType Block A (ask ev r).
Proof. now intros w. Qed.

Lemma keeps_bind {A B} (m : @M Value GType Block A) (k : A -> @M Value GType Block B) :
  keeps m -> (forall a, keeps (k a)) -> keeps (bind m k).
Proof.
  intros Hm Hk w. unfold bind. specialize (Hm w).
  destruct (m w) as [[a | e] w1]; simpl in *; [| exact Hm].
  now rewrite Hk.
Qed.

Lemma keeps_try {A} (m : @M Value GType Block A) catches (h : exn -> @M Value GType Block A) :
  keeps m -> (forall e, keeps (h e)) -> keeps (try_except m catches h).
Proof.
  intros Hm Hh w. unfold try_except. specialize (Hm w).
  destruct (m w) as [[a | e] w1]; simpl in *; [exact Hm |].
  destruct (catches e); [| exact Hm].
  now rewrite Hh.
Qed.

End Logs.

Ltac run_steps :=
  repeat first
    [ progress intros
    | apply logs_bind | apply logs_try | apply logs_ret | apply logs_raise
    | apply logs_lift | apply logs_get | apply logs_set
    | apply logs_ask; reflexivity
    | apply keeps_bind | apply keeps_try | apply keeps_ret | apply keeps_raise
    | apply keeps_lift | apply keeps_ask
    | match goal with
      | |- logs _ (if ?b then _ else _) => destruct b
      | |- keeps (if ?b then _ else _) => destruct b
      | |- logs _ (match ?x with _ => _ end) => destruct x
      | |- keeps (match ?x with _ => _ end) => destruct x
      end ].

Section Walker.

Context {Value GType Block : Type} (gdb : Oracle Value GType Block).

Implicit Types w : World Value GType Block.

Lemma settings_logs val : logs away_from_arrays (absl_get_settings gdb val).
Proof.
  unfold absl_get_settings, first_candidate, second_candidate, gdb_lookup,
    field, cast.
  run_steps.
Qed.

Lemma settings_keeps val : keeps (absl_get_settings gdb val).
Proof.
  unfold absl_get_settings, first_candidate, second_candidate, gdb_lookup,
    field, cast.
  run_steps.
Qed.

Lemma size_logs settings : logs away_from_arrays (absl_container_size gdb settings).
Proof. unfold absl_container_size, field. run_steps. Qed.

Lemma size_keeps settings : keeps (absl_container_size gdb settings).
Proof. unfold absl_container_size, field. run_steps. Qed.

Lemma slot_type_logs val : logs away_from_arrays (resolve_slot_type gdb val).
Proof.
  unfold resolve_slot_type, slot_type_name, lookup_type, gdb_lookup, gdb_lookup_in,
    global_block_of.
  run_steps.
Qed.

Lemma away_weaken w w' : extends away_from_arrays w w' -> extends away_from_slots w w'.
Proof.
  intros (evs & H & F). exists evs. split; [exact H |].
  rewrite forallb_forall in *. intros ev Hev. specialize (F ev Hev).
  unfold away_from_arrays, away_from_slots, names_array in *.
  destruct ev; try exact F. simpl in *.
  destruct (String.eqb name0 "control_"), (String.eqb name0 "slots_");
    simpl in *; congruence.
Qed.

End Walker.

(** ** The slot walker *)

Lemma occupied_length (i : nat) (bytes : list Z) :
  List.length (occupied_from i bytes) = count_occupied bytes.
Proof.
  unfold count_occupied. revert i; induction bytes as [|b bytes IH]; intros i; simpl.
  - reflexivity.
  - destruct (0 <=? b); simpl; now rewrite IH.
Qed.

(** [occupied] lists exactly the indices whose byte is non-negative. *)
Lemma occupied_spec (bytes : list Z) (i : nat) :
  In i (occupied bytes) <-> exists b, nth_error bytes i = Some b /\ 0 <= b.
Proof.
  unfold occupied.
  assert (G : forall k i, In i (occupied_from k bytes)
                          <-> exists b, (k <= i)%nat
                                        /\ nth_error bytes (i - k) = Some b /\ 0 <= b).
  { induction bytes as [|b bytes IH]; intros k j; simpl.
    - split; [tauto |]. intros (b & _ & H & _). now destruct (j - k)%nat.
    - assert (T : In j (occupied_from (S k) bytes)
                  <-> exists b', (k <= j)%nat /\ j <> k
                                 /\ nth_error bytes (j - S k) = Some b' /\ 0 <= b').
      { rewrite IH. split; intros (b' & H); exists b'; intuition lia. }
      destruct (Z.leb_spec 0 b); simpl; rewrite T; split.
      + intros [-> | (b' & Hk & Hne & Hn & Hb)].
        * exists b. rewrite Nat.sub_diag. simpl. intuition lia.
        * exists b'. replace (j - k)%nat with (S (j - S k)) by lia. now simpl.
      + intros (b' & Hk & Hn & Hb).
        destruct (Nat.eq_dec k j) as [E | E]; [now left | right].
        exists b'. replace (j - k)%nat with (S (j - S k)) in Hn by lia.
        simpl in Hn. intuition lia.
      + intros (b' & Hk & Hne & Hn & Hb).
        exists b'. replace (j - k)%nat with (S (j - S k)) by lia. now simpl.
      + intros (b' & Hk & Hn & Hb).
        destruct (Nat.eq_dec k j) as [E | E].
        * subst. rewrite Nat.sub_diag in Hn. simpl in Hn. injection Hn as ->. lia.
        * exists b'. replace (j - k)%nat with (S (j - S k)) in Hn by lia.
          simpl in Hn. intuition lia. }
  rewrite G. rewrite Nat.sub_0_r. split; intros (b & H); exists b; intuition lia.
Qed.

Lemma occupied_ascending (i : nat) (bytes : list Z) :
  StronglySorted lt (occupied_from i bytes)
  /\ Forall (fun j => (i <= j)%nat) (occupied_from i bytes).
Proof.
  revert i; induction bytes as [|b bytes IH]; intros i; simpl.
  - split; constructor.
  - destruct (IH (S i)) as [Hs Hf].
    assert (Hf' : Forall (fun j => (i <= j)%nat) (occupied_from (S i) bytes))
      by (eapply Forall_impl; [| exact Hf]; simpl; intros; lia).
    destruct (0 <=? b); [| now split].
    split; constructor; try assumption; lia.
Qed.

Section Slots.

Context {Value GType Block : Type} (gdb : Oracle Value GType Block).

Implicit Types w : World Value GType Block.

Lemma ends_quietly_drain {A} P w0 (s : GenStep A) :
  ends_quietly P w0 s ->
  fst (fst (drain_step s)) = [] /\ extends P w0 (snd (drain_step s)).
Proof. destruct s; simpl; intros H; now try split. Qed.

Lemma gen_do_quiet {A B} P (m : @M Value GType Block A) (k : A -> Gen B) w0 w :
  logs P m -> extends P w0 w ->
  (forall a w1, m w = (Ok a, w1) -> extends P w0 w1 -> ends_quietly P w0 (k a w1)) ->
  ends_quietly P w0 (gen_do m k w).
Proof.
  intros Hm Hw Hk. unfold gen_do. specialize (Hm w).
  destruct (m w) as [[a | e] w1] eqn:E; simpl in *.
  - apply Hk; [reflexivity | eapply extends_trans; eassumption].
  - eapply extends_trans; eassumption.
Qed.

Lemma logs_weaken {A} (m : @M Value GType Block A) :
  logs away_from_arrays m -> logs away_from_slots m.
Proof. intros H w. apply away_weaken, H. Qed.

Lemma answer_inv {A} (m : @M Value GType Block A) (a a' : A) w w1 :
  answers m a -> m w = (Ok a', w1) -> a' = a.
Proof. intros H E. specialize (H w). rewrite E in H. simpl in H. congruence. Qed.

(** C5: for a table whose reported size is 0 the walker yields nothing and
    ends, and nothing it asked of the debugger is an element of an array or
    names the control-byte or the slot array.  For a table whose capacity
    is 0 it yields nothing either, reads no element of any array and never
    asks for the slot array.  Neither depends on what the control bytes
    hold. *)
Theorem empty_table_untouched (val settings : Value) w :
  answers (absl_get_settings gdb val) settings ->
  (forall size,
      answers (absl_container_size gdb settings) size ->
      value_eq_int gdb size 0 = Ok true ->
      yielded (absl_get_nodes gdb val) w = []
      /\ outcome (absl_get_nodes gdb val) w = Ok tt
      /\ extends away_from_arrays w (world_after (absl_get_nodes gdb val) w))
  /\ (forall cap c,
         value_field gdb settings "capacity_" = Ok cap ->
         value_int gdb cap = Ok c ->
         c <= 0 ->
         yielded (absl_get_nodes gdb val) w = []
         /\ extends away_from_slots w (world_after (absl_get_nodes gdb val) w)).
Proof.
  intros Hset. split.
  - intros size Hsize Hz.
    assert (D : exists w', absl_get_nodes gdb val w = Done w'
                           /\ extends away_from_arrays w w').
    { unfold absl_get_nodes, gen_do at 1.
      pose proof (settings_logs gdb val w) as L1.
      destruct (absl_get_settings gdb val w) as [r w1] eqn:E1.
      pose proof (Hset w) as R1. rewrite E1 in R1. simpl in R1, L1. subst r.
      unfold gen_do at 1.
      pose proof (size_logs gdb settings w1) as L2.
      destruct (absl_container_size gdb settings w1) as [r w2] eqn:E2.
      pose proof (Hsize w1) as R2. rewrite E2 in R2. simpl in R2, L2. subst r.
      unfold gen_do, eq_int, ask. rewrite Hz.
      eexists. split; [reflexivity |].
      eapply extends_trans; [exact L1 |].
      eapply extends_trans; [exact L2 |]. now apply extends_log. }
    destruct D as (w' & D & Hext).
    unfold yielded, outcome, world_after, drain. rewrite D. now repeat split.
  - intros cap c Hcap Hc Hle.
    assert (Q : ends_quietly away_from_slots w (absl_get_nodes gdb val w)).
    { unfold absl_get_nodes.
      apply gen_do_quiet;
        [apply logs_weaken, settings_logs | apply extends_refl |].
      intros s1 w1 E1 X1. apply (answer_inv _ _ _ _ _ Hset) in E1 as ->.
      apply gen_do_quiet; [apply logs_weaken, size_logs | exact X1 |].
      intros size w2 _ X2.
      apply gen_do_quiet; [now apply logs_ask | exact X2 |].
      intros [|] w3 _ X3; [exact X3 |].
      apply gen_do_quiet;
        [unfold field, int; apply logs_bind; [| intros]; now apply logs_ask
        | exact X3 |].
      intros c' w4 E4 X4.
      assert (c' = c) as ->.
      { unfold bind, field, int, ask in E4. rewrite Hcap, Hc in E4. congruence. }
      apply gen_do_quiet; [now apply logs_ask | exact X4 |].
      intros ctrl w5 _ X5.
      apply gen_do_quiet; [apply logs_weaken, slot_type_logs | exact X5 |].
      intros slot_type w6 _ X6.
      rewrite range_nil by lia. exact X6. }
    apply ends_quietly_drain in Q. unfold yielded, world_after, drain. exact Q.
Qed.

Lemma yields_all_drain {A} (l : list A) (s : @GenStep Value GType Block A) :
  yields_all l s ->
  fst (fst (drain_step s)) = l /\ snd (fst (drain_step s)) = Ok tt.
Proof.
  induction 1 as [w | a l w next _ IH]; simpl; [now split |].
  specialize (IH w). destruct (drain_step (next w)) as [[l' r] w'].
  simpl in *. destruct IH as [-> ->]. now split.
Qed.

Lemma gen_do_ok {A B} (m : @M Value GType Block A) (k : A -> Gen B) (a : A) w :
  fst (m w) = Ok a -> gen_do m k w = k a (snd (m w)).
Proof. unfold gen_do. destruct (m w) as [r w1]. simpl. now intros ->. Qed.

Lemma world_eta w g :
  MAIN_GLOBAL_BLOCK w = g -> w = {| MAIN_GLOBAL_BLOCK := g; trace := trace w |}.
Proof. destruct w. simpl. now intros ->. Qed.

Section Table.

(** A table the debugger can read: [val] has settings with a non-zero size,
    capacity [length bytes], control bytes that read (signed) as [bytes],
    a slot type that resolves in the world the walker starts in, and for
    every non-negative control byte a slot [slot i] that can be read from
    the slot array cast to a pointer to that slot type. *)
Variables (val settings size cap ctrl : Value) (slot_type : GType).
Variables (bytes : list Z) (slot : nat -> Value).
Variable w : World Value GType Block.

Hypothesis table_settings : answers (absl_get_settings gdb val) settings.
Hypothesis table_size : answers (absl_container_size gdb settings) size.
Hypothesis table_not_empty : value_eq_int gdb size 0 = Ok false.
Hypothesis table_capacity_field : value_field gdb settings "capacity_" = Ok cap.
Hypothesis table_capacity : value_int gdb cap = Ok (Z.of_nat (List.length bytes)).
Hypothesis table_control : value_field gdb settings "control_" = Ok ctrl.
Hypothesis table_slot_type :
  forall tr,
    fst (resolve_slot_type gdb val
           {| MAIN_GLOBAL_BLOCK := MAIN_GLOBAL_BLOCK w; trace := tr |})
    = Ok slot_type.
Hypothesis table_bytes :
  forall i b, nth_error bytes i = Some b ->
    exists cb, value_index gdb ctrl (Z.of_nat i) = Ok cb /\ value_int gdb cb = Ok b.
Hypothesis table_slots :
  forall i b, nth_error bytes i = Some b -> 0 <= b ->
    exists slots ptr arr,
      value_field gdb settings "slots_" = Ok slots
      /\ type_pointer gdb slot_type = Ok ptr
      /\ value_cast gdb slots ptr = Ok arr
      /\ value_index gdb arr (Z.of_nat i) = Ok (slot i).

Lemma loop_yields (bs : list Z) (i : nat) :
  (forall j b, nth_error bs j = Some b -> nth_error bytes (i + j) = Some b) ->
  forall w', yields_all (map slot (occupied_from i bs))
               (absl_get_nodes_loop gdb settings ctrl slot_type
                  (Py.range (Z.of_nat i) (Z.of_nat (i + List.length bs))) w').
Proof.
  revert i; induction bs as [|b bs IH]; intros i Hbs w'.
  - rewrite range_nil by (simpl; lia). constructor.
  - rewrite range_cons by (simpl; lia).
    assert (Hb : nth_error bytes i = Some b)
      by (rewrite <- (Nat.add_0_r i); now apply Hbs).
    assert (IH' : forall w'', yields_all (map slot (occupied_from (S i) bs))
                    (absl_get_nodes_loop gdb settings ctrl slot_type
                       (Py.range (Z.of_nat i + 1)
                                 (Z.of_nat (i + List.length (b :: bs)))) w'')).
    { intros w''.
      replace (Z.of_nat i + 1) with (Z.of_nat (S i)) by lia.
      replace (i + List.length (b :: bs))%nat with (S i + List.length bs)%nat
        by (simpl; lia).
      apply IH. intros j b' Hj.
      replace (S i + j)%nat with (i + S j)%nat by lia. now apply Hbs. }
    cbn [absl_get_nodes_loop occupied_from].
    destruct (table_bytes i b Hb) as (cb & Hcb & Hint).
    unfold bind at 1, index at 1, ask at 1. rewrite Hcb.
    unfold int at 1, ask at 1. rewrite Hint.
    rewrite Z.geb_leb. destruct (Z.leb_spec 0 b) as [Hpos | Hneg].
    + destruct (table_slots i b Hb Hpos) as (slots & ptr & arr & Hs & Hp & Hc & Hi).
      unfold bind, field, lift, cast, index, ask. rewrite Hs, Hp, Hc, Hi.
      cbn [map]. constructor. exact IH'.
    + apply IH'.
Qed.

Lemma walker_yields :
  yields_all (map slot (occupied bytes)) (absl_get_nodes gdb val w).
Proof.
  unfold absl_get_nodes.
  rewrite (gen_do_ok _ _ settings) by apply table_settings.
  pose proof (settings_keeps gdb val w) as K1.
  set (w1 := snd (absl_get_settings gdb val w)) in *.
  rewrite (gen_do_ok _ _ size) by apply table_size.
  pose proof (size_keeps gdb settings w1) as K2.
  set (w2 := snd (absl_container_size gdb settings w1)) in *.
  rewrite (gen_do_ok _ _ false) by (unfold eq_int, ask; simpl; exact table_not_empty).
  rewrite (gen_do_ok _ _ (Z.of_nat (List.length bytes)))
    by (unfold bind, field, int, ask; rewrite table_capacity_field, table_capacity;
        reflexivity).
  rewrite (gen_do_ok _ _ ctrl) by (unfold field, ask; simpl; exact table_control).
  match goal with
  | |- yields_all _ (gen_do _ _ ?w5) =>
      assert (K5 : MAIN_GLOBAL_BLOCK w5 = MAIN_GLOBAL_BLOCK w);
      [| rewrite (gen_do_ok _ _ slot_type)
           by (rewrite (world_eta w5 _ K5); apply table_slot_type) ]
  end.
  { unfold bind, field, int, eq_int, ask.
    rewrite table_capacity_field. simpl. congruence. }
  apply (loop_yields bytes 0). now intros.
Qed.

(** C1: for a readable table with capacity [length bytes] whose reported
    size is not zero, the walker yields one element for each index whose
    control byte is non-negative, in ascending order of the indices, each
    read from the slot array cast to a pointer to the slot type, and then
    ends; their number is the number of non-negative control bytes.
    ([occupied bytes] is the ascending list of exactly those indices.) *)
Theorem walker_yields_occupied_slots :
  yielded (absl_get_nodes gdb val) w = map slot (occupied bytes)
  /\ outcome (absl_get_nodes gdb val) w = Ok tt
  /\ List.length (yielded (absl_get_nodes gdb val) w) = count_occupied bytes
  /\ StronglySorted lt (occupied bytes)
  /\ (forall i, In i (occupied bytes)
                <-> exists b, nth_error bytes i = Some b /\ 0 <= b).
Proof.
  destruct (yields_all_drain _ _ walker_yields) as [Hy Ho].
  unfold yielded, outcome, drain. rewrite Hy, Ho.
  split; [reflexivity | split; [reflexivity | split; [| split]]].
  - rewrite length_map. apply occupied_length.
  - apply occupied_ascending.
  - apply occupied_spec.
Qed.

Lemma labelled_length (count : nat) (l : list Value) :
  List.length (labelled count l) = List.length l.
Proof. revert count; induction l; intros; simpl; [reflexivity | now rewrite IHl]. Qed.

Lemma child_reads_length (p : Printer) (nodes : list Value) (outs : list (list Value)) :
  Forall2 (child_reads gdb p) nodes outs ->
  List.length (List.concat outs)
  = if is_map p then (2 * List.length nodes)%nat else List.length nodes.
Proof.
  induction 1 as [| node out nodes outs H _ IH]; [now destruct p |].
  simpl. rewrite length_app, IH.
  destruct p; simpl in *;
    repeat match goal with
           | H : exists _, _ |- _ => destruct H
           | H : _ /\ _ |- _ => destruct H
           end; subst; simpl; try lia; contradiction.
Qed.

Lemma children_yield (p : Printer) (nodes : list Value) (outs : list (list Value))
      (s : @GenStep Value GType Block Value) :
  p <> BoostOptionalPrinter ->
  yields_all nodes s ->
  Forall2 (child_reads gdb p) nodes outs ->
  forall count, yields_all (labelled count (List.concat outs)) (children_on gdb p count s).
Proof.
  intros Hp Hs. revert outs. induction Hs as [w0 | node nodes w0 next _ IH];
    intros outs HF count; inversion HF as [| ? out ? outs' Hr HF']; subst.
  - destruct p; simpl; try constructor. contradiction.
  - specialize (fun w' => IH w' _ HF').
    destruct p; simpl in Hr;
      repeat match goal with
             | H : exists _, _ |- _ => destruct H
             | H : _ /\ _ |- _ => destruct H
             end; subst; try contradiction;
      cbn [children_on node_set_children flat_set_children node_map_children
           flat_map_children List.concat app labelled] in *.
    + unfold dereference, ask.
      match goal with H : value_dereference _ _ = _ |- _ => rewrite H end.
      constructor. intros w'. rewrite Nat.add_1_r. apply IH.
    + constructor. intros w'. rewrite Nat.add_1_r. apply IH.
    + unfold field, ask.
      repeat match goal with H : value_field _ _ _ = _ |- _ => rewrite H end.
      constructor. intros w'. rewrite !Nat.add_1_r.
      constructor. intros w''. apply IH.
    + unfold bind, field, ask.
      repeat match goal with H : value_field _ _ _ = _ |- _ => rewrite H end.
      constructor. intros w'. rewrite !Nat.add_1_r.
      constructor. intros w''. apply IH.
Qed.

(** C8: for a readable table with [k] non-negative control bytes whose
    occupied slots the printer can read, the children of a map printer are
    the key and then the value of each occupied slot, labelled "0", "1", ...:
    [2k] of them; the children of a set printer are one labelled element for
    each occupied slot: [k] of them. *)
Theorem children_count (p : Printer) (outs : list (list Value)) :
  p <> BoostOptionalPrinter ->
  Forall2 (child_reads gdb p) (map slot (occupied bytes)) outs ->
  yielded (children gdb p val) w = labelled 0 (List.concat outs)
  /\ outcome (children gdb p val) w = Ok tt
  /\ List.length (yielded (children gdb p val) w)
     = if is_map p then (2 * count_occupied bytes)%nat else count_occupied bytes.
Proof.
  intros Hp HF.
  assert (E : children gdb p val w = children_on gdb p 0 (absl_get_nodes gdb val w))
    by (destruct p; try reflexivity; contradiction).
  pose proof (children_yield p _ outs _ Hp walker_yields HF 0) as Y.
  apply yields_all_drain in Y as [Hy Ho].
  unfold yielded, outcome, drain. rewrite E, Hy, Ho.
  repeat split.
  rewrite labelled_length, (child_reads_length p _ _ HF), length_map.
  unfold occupied. now rewrite occupied_length.
Qed.

End Table.

End Slots.

(** ** The name resolver once the global is bound

    What [lookup_type] does in a world where [MAIN_GLOBAL_BLOCK] has been
    given a value (no statement of the file does so before the first call). *)

Section Resolver.

Context {Value GType Block : Type} (gdb : Oracle Value GType Block).

Implicit Types w : World Value GType Block.

Lemma lookup_type_default_scope (name : string) (t : GType) w :
  gdb_lookup_type gdb name = Ok t ->
  lookup_type gdb name w = (Ok t, log (EvLookupType name) w).
Proof.
  intros H. unfold lookup_type, try_except, gdb_lookup, ask. now rewrite H.
Qed.

Lemma lookup_type_second_scope (name : string) (e1 : exn) (b : Block) w w1 :
  gdb_lookup_type gdb name = Raise e1 ->
  is_Exception e1 = true ->
  second_scope gdb name w = Ok (b, w1) ->
  (forall t, gdb_lookup_type_in gdb name b = Ok t ->
             lookup_type gdb name w = (Ok t, log (EvLookupTypeIn name b) w1))
  /\ (forall e2, gdb_lookup_type_in gdb name b = Raise e2 ->
                 is_Exception e2 = true ->
                 lookup_type gdb name w
                 = (Raise (gdb_error ("Failed to get type, tried:" ++ String "010" ""
                                       ++ str_exn e1 ++ String "010" "" ++ str_exn e2)),
                    log (EvLookupTypeIn name b) w1)).
Proof.
  intros H1 He1 Hs. unfold second_scope in Hs.
  split; [intros t H2 | intros e2 H2 He2];
    unfold lookup_type, try_except at 1, gdb_lookup at 1, ask at 1;
    rewrite H1, He1; unfold bind at 1, get_MAIN_GLOBAL_BLOCK; cbn [MAIN_GLOBAL_BLOCK log];
    destruct (MAIN_GLOBAL_BLOCK w) as [| [b' |]]; try discriminate.
  - injection Hs as -> <-. unfold bind, ret, try_except, gdb_lookup_in, ask.
    now rewrite H2.
  - unfold bind, global_block_of, ask, set_MAIN_GLOBAL_BLOCK, ret, try_except,
      gdb_lookup_in.
    destruct (gdb_global_block_of gdb "main"); [| discriminate].
    injection Hs as -> <-. now rewrite H2.
  - injection Hs as -> <-. unfold bind, ret, try_except, gdb_lookup_in, ask, raise.
    rewrite H2. cbn. rewrite He2. reflexivity.
  - unfold bind, global_block_of, ask, set_MAIN_GLOBAL_BLOCK, ret, try_except,
      gdb_lookup_in, raise.
    destruct (gdb_global_block_of gdb "main"); [| discriminate].
    injection Hs as -> <-. rewrite H2. cbn. rewrite He2. reflexivity.
Qed.

End Resolver.

(** ** The theorems at the small inferior *)

Ltac toy_table :=
  lazymatch goal with
  | |- answers _ _ => intros ?; reflexivity
  | |- forall tr, fst _ = _ => intros ?; reflexivity
  | |- forall i b, nth_error _ i = Some b -> exists cb, _ =>
      let i := fresh "i" in
      let b := fresh "b" in
      let H := fresh "H" in
      intros i b H; exists (Toy.Ctrl (Z.of_nat i)); split; [reflexivity |];
      cbv beta iota delta [value_int Toy.oracle Toy.read_int];
      rewrite Nat2Z.id; f_equal; now apply nth_error_nth
  | |- forall i b, nth_error _ i = Some b -> 0 <= b -> _ =>
      intros; exists Toy.Slots, Toy.SlotPointer, Toy.SlotArray;
      repeat split; reflexivity
  | |- _ => reflexivity
  end.

Lemma walker_yields_occupied_slots_witness :
  yielded (absl_get_nodes (Toy.oracle Toy.scenario) Toy.Table) module_loaded
  = map toy_slot (occupied (Toy.ctrl_bytes Toy.scenario))
  /\ outcome (absl_get_nodes (Toy.oracle Toy.scenario) Toy.Table) module_loaded = Ok tt
  /\ List.length (yielded (absl_get_nodes (Toy.oracle Toy.scenario) Toy.Table)
                          module_loaded)
     = count_occupied (Toy.ctrl_bytes Toy.scenario).
Proof.
  destruct (walker_yields_occupied_slots
              (Toy.oracle Toy.scenario) Toy.Table Toy.Common Toy.Size Toy.Capacity
              Toy.Control Toy.SlotType (Toy.ctrl_bytes Toy.scenario) toy_slot
              module_loaded
              ltac:(toy_table) ltac:(toy_table) ltac:(toy_table) ltac:(toy_table)
              ltac:(toy_table) ltac:(toy_table) ltac:(toy_table) ltac:(toy_table)
              ltac:(toy_table))
    as (Hy & Ho & Hl & _).
  repeat split; assumption.
Defined.

(** The spec's scenario: capacity 7, control bytes [-1,-1,0,0,-1,0,-1]. *)
Example walker_scenario :
  yielded (absl_get_nodes (Toy.oracle Toy.scenario) Toy.Table) module_loaded
  = [Toy.Slot 2; Toy.Slot 3; Toy.Slot 5].
Proof. reflexivity. Qed.

Lemma children_count_witness :
  yielded (children (Toy.oracle Toy.scenario) AbslFlatHashMapPrinter Toy.Table)
          module_loaded
  = [("0", Toy.Key 2); ("1", Toy.Mapped 2); ("2", Toy.Key 3);
     ("3", Toy.Mapped 3); ("4", Toy.Key 5); ("5", Toy.Mapped 5)]
  /\ List.length
       (yielded (children (Toy.oracle Toy.scenario) AbslFlatHashMapPrinter Toy.Table)
                module_loaded)
     = (2 * 3)%nat.
Proof.
  destruct (children_count
              (Toy.oracle Toy.scenario) Toy.Table Toy.Common Toy.Size Toy.Capacity
              Toy.Control Toy.SlotType (Toy.ctrl_bytes Toy.scenario) toy_slot
              module_loaded
              ltac:(toy_table) ltac:(toy_table) ltac:(toy_table) ltac:(toy_table)
              ltac:(toy_table) ltac:(toy_table) ltac:(toy_table) ltac:(toy_table)
              ltac:(toy_table)
              AbslFlatHashMapPrinter
              [[Toy.Key 2; Toy.Mapped 2]; [Toy.Key 3; Toy.Mapped 3];
               [Toy.Key 5; Toy.Mapped 5]])
    as (Hy & _ & Hl).
  - discriminate.
  - repeat constructor;
      [exists (Toy.Key 2), (Toy.Pair 2), (Toy.Mapped 2)
      | exists (Toy.Key 3), (Toy.Pair 3), (Toy.Mapped 3)
      | exists (Toy.Key 5), (Toy.Pair 5), (Toy.Mapped 5)];
      repeat split; reflexivity.
  - split; [exact Hy | exact Hl].
Defined.

Example set_children_scenario :
  yielded (children (Toy.oracle Toy.scenario) AbslNodeHashSetPrinter Toy.Table)
          module_loaded
  = [("0", Toy.Pointee 2); ("1", Toy.Pointee 3); ("2", Toy.Pointee 5)].
Proof. reflexivity. Qed.

Lemma settings_spelling_fallback_witness :
  fst (absl_get_settings (Toy.oracle toy_unspaced) Toy.Table module_loaded)
  = Ok Toy.Common.
Proof.
  refine (proj2 (proj1 (settings_spelling_fallback
                          (Toy.oracle toy_unspaced) Toy.Table module_loaded)
                       _ Toy.StorageType _ _ _)
                Toy.SettingsField Toy.Storage Toy.Common _ _ _);
    reflexivity.
Defined.

Lemma empty_table_untouched_witness :
  (yielded (absl_get_nodes (Toy.oracle toy_empty) Toy.Table) module_loaded = []
   /\ outcome (absl_get_nodes (Toy.oracle toy_empty) Toy.Table) module_loaded = Ok tt
   /\ extends away_from_arrays module_loaded
        (world_after (absl_get_nodes (Toy.oracle toy_empty) Toy.Table) module_loaded))
  /\ (yielded (absl_get_nodes (Toy.oracle toy_no_capacity) Toy.Table) module_loaded = []
      /\ extends away_from_slots module_loaded
           (world_after (absl_get_nodes (Toy.oracle toy_no_capacity) Toy.Table)
                        module_loaded)).
Proof.
  split.
  - refine (proj1 (empty_table_untouched (Toy.oracle toy_empty) Toy.Table
                     Toy.Common module_loaded _) Toy.Size _ _);
      try (intros ?); reflexivity.
  - refine (proj2 (empty_table_untouched (Toy.oracle toy_no_capacity) Toy.Table
                     Toy.Common module_loaded _) Toy.Capacity 0 _ _ _);
      [intros ?; reflexivity | reflexivity | reflexivity | lia].
Defined.

Lemma container_size_is_capacity_witness :
  fst (absl_container_size (Toy.oracle toy_plain_size) Toy.Common module_loaded)
  = Ok Toy.Capacity.
Proof.
  refine (proj1 (container_size_is_capacity (Toy.oracle toy_plain_size) Toy.Common
                   (Toy.no_field "compressed_tuple_") _) module_loaded).
  left. reflexivity.
Defined.

Example plain_size_summary :
  fst (to_string (Toy.oracle toy_plain_size) AbslFlatHashSetPrinter Toy.Table
                 module_loaded)
  = Ok "absl::flat_hash_set<int> with 7 elems ".
Proof. reflexivity. Qed.

Lemma lookup_type_unbound_global_witness :
  Toy.lookup_in_main (Toy.table_name ++ "::slot_type") = Ok Toy.SlotType
  /\ lookup_type (Toy.oracle toy_main_only) (Toy.table_name ++ "::slot_type")
                 module_loaded
     = (Raise (NameError "MAIN_GLOBAL_BLOCK"),
        {| MAIN_GLOBAL_BLOCK := Unbound;
           trace := [EvLookupType (Toy.table_name ++ "::slot_type")] |}).
Proof.
  split; [reflexivity |].
  apply (lookup_type_unbound_global (Toy.oracle toy_main_only)
           (Toy.table_name ++ "::slot_type")
           (Toy.no_type (Toy.table_name ++ "::slot_type")) []);
    reflexivity.
Defined.

(** Had the global been bound to [None], the second lookup would be made
    and would find the type. *)
Example lookup_type_when_initialised :
  fst (lookup_type (Toy.oracle toy_main_only) (Toy.table_name ++ "::slot_type")
                   Toy.initialised)
  = Ok Toy.SlotType.
Proof. reflexivity. Qed.

(** * Further properties *)

(** ** Name insertion, on every name *)

(** A name in which the root token occurs splits at its first root token. *)
Lemma first_root_split (s : string) :
  occurs "absl::" s ->
  exists pre post, s = pre ++ "absl::" ++ post /\ root_first_after pre.
Proof.
  intros Hocc.
  assert (Hf : Py.find_from s "absl::" 0 <> -1).
  { intros E. now apply (proj1 (find_none_iff s "absl::")) in E. }
  destruct (find_from_found s "absl::" 0 _ eq_refl Hf) as (pre & post & -> & _ & Hfirst);
    [lia |].
  exists pre, post. split; [reflexivity |].
  intros (a & b & E).
  assert (Hlen : (String.length a < String.length pre)%nat).
  { apply (f_equal String.length) in E. rewrite !length_append in E. simpl in E. lia. }
  specialize (Hfirst _ Hlen).
  change "absl::" with ("absl:" ++ ":") in Hfirst at 1.
  rewrite append_assoc, <- (append_assoc pre "absl:"), E in Hfirst.
  rewrite !append_assoc, drop_app in Hfirst.
  rewrite startswith_app in Hfirst. discriminate.
Qed.

(** X1: insertion succeeds on every name in which the root token "absl::"
    occurs: the name splits at its first root token, the version token goes
    right after it, and the result is 14 characters longer. *)
Theorem absl_insert_on_rooted_name (s : string) :
  occurs "absl::" s ->
  exists pre post,
    s = pre ++ "absl::" ++ post
    /\ root_first_after pre
    /\ absl_insert_version_after_absl s = Ok (pre ++ "absl::lts_20240116::" ++ post)
    /\ Py.len (pre ++ "absl::lts_20240116::" ++ post) = Py.len s + 14.
Proof.
  intros Hocc. destruct (first_root_split s Hocc) as (pre & post & -> & Hfirst).
  exists pre, post. repeat split; try assumption.
  - now apply insert_after_first.
  - unfold Py.len. rewrite !length_append. simpl. lia.
Qed.

Lemma absl_insert_on_rooted_name_witness :
  exists pre post,
    "std::pair<absl::Cord, absl::Time>" = pre ++ "absl::" ++ post
    /\ root_first_after pre
    /\ absl_insert_version_after_absl "std::pair<absl::Cord, absl::Time>"
       = Ok (pre ++ "absl::lts_20240116::" ++ post)
    /\ Py.len (pre ++ "absl::lts_20240116::" ++ post)
       = Py.len "std::pair<absl::Cord, absl::Time>" + 14.
Proof.
  apply (absl_insert_on_rooted_name "std::pair<absl::Cord, absl::Time>").
  exists "std::pair<", "Cord, absl::Time>". reflexivity.
Defined.

(** X2: insertion is not idempotent.  Inserting into its own result puts a
    second version token right after the first root token: the name comes
    out with the version nested twice. *)
Theorem absl_insert_twice (pre post : string) :
  root_first_after pre ->
  match absl_insert_version_after_absl (pre ++ "absl::" ++ post) with
  | Ok once => absl_insert_version_after_absl once
  | Raise e => Raise e
  end
  = Ok (pre ++ "absl::" ++ "lts_20240116::" ++ "lts_20240116::" ++ post).
Proof.
  intros Hfirst. rewrite (insert_after_first pre post Hfirst).
  now rewrite (insert_after_first pre (version_token ++ post) Hfirst).
Qed.

Lemma absl_insert_twice_witness :
  match absl_insert_version_after_absl ("" ++ "absl::" ++ "flat_hash_set") with
  | Ok once => absl_insert_version_after_absl once
  | Raise e => Raise e
  end
  = Ok ("" ++ "absl::" ++ "lts_20240116::" ++ "lts_20240116::" ++ "flat_hash_set").
Proof.
  apply (absl_insert_twice "" "flat_hash_set").
  apply (proj1 (find_none_iff _ _)). reflexivity.
Defined.

(** ** Bracket matching, in full *)

(** X3: [find_match_brackets s] is the index of the ">" that closes the
    first "<" of [s] (the text between them has balanced brackets), and it
    is [-1] exactly when no ">" closes the first "<": no "<" at all, or a
    first "<" that stays open to the end. *)
Theorem find_match_brackets_meaning (s : string) :
  (forall j, find_match_brackets s = j /\ 0 <= j <-> closes_first_open s j)
  /\ (find_match_brackets s = -1 <-> ~ exists j, closes_first_open s j).
Proof.
  split; [intros j; apply find_match_brackets_spec |].
  split.
  - intros E (j & Hj). apply find_match_brackets_spec in Hj. lia.
  - intros Hno. destruct (find_match_brackets_range s) as [E | R]; [exact E |].
    exfalso. apply Hno. exists (find_match_brackets s).
    apply find_match_brackets_spec. split; [reflexivity | lia].
Qed.

(** X4: what [find_match_brackets] returns is [-1] or an index inside the
    string, after the first "<", at which the string has a ">". *)
Theorem find_match_brackets_points_at_closer (s : string) :
  find_match_brackets s = -1
  \/ (0 <= Py.find s "<" < find_match_brackets s
      /\ find_match_brackets s < Py.len s
      /\ Py.item s (find_match_brackets s) = Some ">").
Proof.
  destruct (find_match_brackets_range s) as [E | R]; [now left | right].
  destruct (proj1 (find_match_brackets_spec s (find_match_brackets s)))
    as (pre & body & post & Es & Hno & _ & Ej); [split; [reflexivity | lia] |].
  rewrite Ej. subst s.
  assert (Ef : Py.find (pre ++ "<" ++ body ++ ">" ++ post) "<" = Py.len pre).
  { unfold Py.find. rewrite (find_from_first pre "<" _ 0); [lia |].
    apply (no_early_start pre "" _ "<"%char). now rewrite append_nil_r. }
  rewrite Ef. repeat split; try (unfold Py.len; rewrite ?length_append; simpl; lia).
  replace (pre ++ "<" ++ body ++ ">" ++ post)
    with ((pre ++ "<" ++ body) ++ String ">" post)
    by (now rewrite !append_assoc).
  replace (Py.len pre + 1 + Py.len body) with (Py.len (pre ++ "<" ++ body))
    by (unfold Py.len; rewrite !length_append; simpl; lia).
  apply item_app.
Qed.

(** ** Small strings *)

Lemma land_two (a : Z) : Z.land a 2 = if Z.testbit a 1 then 2 else 0.
Proof.
  apply Z.bits_inj'. intros n Hn. rewrite Z.land_spec.
  destruct (Z.eq_dec n 1) as [-> | Hne].
  - destruct (Z.testbit a 1); reflexivity.
  - replace (Z.testbit 2 n) with false.
    + rewrite andb_false_r. destruct (Z.testbit a 1); [| now rewrite Z.bits_0].
      change 2 with (2 ^ 1). rewrite Z.pow2_bits_eqb by lia.
      symmetry. apply Z.eqb_neq. lia.
    + change 2 with (2 ^ 1). rewrite Z.pow2_bits_eqb by lia.
      symmetry. apply Z.eqb_neq. lia.
Qed.

(** X5: the size read from a flags byte never exceeds
    [MAX_DB_NAME_LENGTH]. *)
Theorem small_string_size_fits (flags : Z) :
  0 <= flags < 256 ->
  0 <= small_string_size flags <= MAX_DB_NAME_LENGTH.
Proof.
  intros H. unfold small_string_size, MAX_DB_NAME_LENGTH.
  rewrite Z.shiftr_div_pow2 by lia. change (2 ^ 2) with 4.
  split; [apply Z.div_pos; lia |].
  apply Z.lt_succ_r. apply Z.div_lt_upper_bound; lia.
Qed.

Lemma small_string_size_fits_witness :
  0 <= small_string_size 255 <= MAX_DB_NAME_LENGTH.
Proof. apply (small_string_size_fits 255). lia. Defined.

(** X6: the two fields of a flags value do not overlap.  Of
    [4 * size + low] with [low] in 0..3, [small_string_size] gives [size]
    back, whatever [low] is, and [is_small_string] tells whether [low] has
    its bit 1 set, whatever [size] is (a negative one too). *)
Theorem small_string_fields (size low : Z) :
  0 <= low < 4 ->
  small_string_size (4 * size + low) = size
  /\ is_small_string (4 * size + low) = (2 <=? low).
Proof.
  intros H. unfold small_string_size, is_small_string. split.
  - rewrite Z.shiftr_div_pow2 by lia. change (2 ^ 2) with 4.
    rewrite Z.mul_comm, Z.div_add_l by lia. rewrite Z.div_small; lia.
  - rewrite land_two.
    assert (T : Z.b2z (Z.testbit (4 * size + low) 1) = Z.b2z (2 <=? low)).
    { rewrite Z.testbit_spec' by lia. change (2 ^ 1) with 2.
      replace (4 * size + low) with (low + (2 * size) * 2) by lia.
      rewrite Z.div_add by lia.
      replace (low / 2 + 2 * size) with (low / 2 + size * 2) by lia.
      rewrite Z.mod_add by lia.
      assert (low = 0 \/ low = 1 \/ low = 2 \/ low = 3) as [-> | [-> | [-> | ->]]]
        by lia; reflexivity. }
    destruct (Z.testbit (4 * size + low) 1), (2 <=? low);
      simpl in T; try reflexivity; discriminate.
Qed.

Lemma small_string_fields_witness :
  small_string_size (4 * 17 + 2) = 17 /\ is_small_string (4 * 17 + 2) = (2 <=? 2).
Proof. apply (small_string_fields 17 2). lia. Defined.

(** ** The dispatcher, for any collection *)

Section Dispatch.

Context {Value : Type}.

Implicit Types (sps : list MongoSubPrettyPrinter) (val : Value).

(** What the loop of [__call__] tests of an entry. *)
Lemma entry_test_iff (tag : string) (sp : MongoSubPrettyPrinter) :
  tag <> "" ->
  (if is_template sp
   then (find_match_brackets tag + 1 =? Py.len tag) && (Py.find tag (prefix sp) =? 0)
   else String.eqb tag (prefix sp)) = true
  <-> entry_matches tag sp.
Proof.
  intros Hne. unfold entry_matches. destruct (is_template sp).
  - rewrite closes_at_end_iff, <- startswith_iff, <- find_zero_iff.
    rewrite andb_true_iff, !Z.eqb_eq. tauto.
  - apply String.eqb_eq.
Qed.

Lemma call_loop_app (tag : string) (index : Z) sps1 sps2 val :
  call_loop tag index (sps1 ++ sps2) val
  = match call_loop tag index sps1 val with
    | Some r => Some r
    | None => call_loop tag index sps2 val
    end.
Proof.
  induction sps1 as [|sp sps1 IH]; cbn [call_loop app]; [reflexivity |].
  destruct (negb (enabled sp)); [exact IH |].
  destruct (is_template sp).
  - destruct (_ && _); [reflexivity | exact IH].
  - destruct (String.eqb _ _); [reflexivity | exact IH].
Qed.

(** X7: entries are tried in the order of their registration, and the first
    that matches wins: the entries registered later are asked only when no
    earlier one matched.  So [add] never changes the printer of a type name
    that already had one. *)
Theorem dispatch_in_registration_order sps1 sps2 (tag : option string) val :
  call_tag (sps1 ++ sps2) tag val
  = match call_tag sps1 tag val with
    | Some r => Some r
    | None => call_tag sps2 tag val
    end
  /\ forall name prefix is_template printer r,
       call_tag sps1 tag val = Some r ->
       call_tag (add sps1 name prefix is_template printer) tag val = Some r.
Proof.
  assert (A : forall sps sps', call_tag (sps ++ sps') tag val
                               = match call_tag sps tag val with
                                 | Some r => Some r
                                 | None => call_tag sps' tag val
                                 end).
  { intros sps sps'. unfold call_tag. destruct tag as [tag |]; [| reflexivity].
    destruct (falsy (Some tag)); [reflexivity | apply call_loop_app]. }
  split; [apply A |].
  intros name prefix is_template printer r H. unfold add. now rewrite A, H.
Qed.

(** X8: an entry that is not enabled is never chosen: the dispatcher does
    what it would do without the disabled entries. *)
Theorem dispatch_skips_disabled sps (tag : option string) val :
  call_tag sps tag val = call_tag (filter enabled sps) tag val.
Proof.
  unfold call_tag. destruct tag as [tag |]; [| reflexivity].
  destruct (falsy (Some tag)); [reflexivity |].
  induction sps as [|sp sps IH]; [reflexivity |].
  cbn [call_loop filter]. destruct (enabled sp) eqn:E; cbn [negb call_loop].
  - rewrite E. cbn [negb]. destruct (is_template sp).
    + destruct (_ && _); [reflexivity | exact IH].
    + destruct (String.eqb _ _); [reflexivity | exact IH].
  - exact IH.
Qed.

Lemma call_tag_spec sps (tag : string) val :
  (forall r, call_tag sps (Some tag) val = Some r ->
             exists sp, In sp sps /\ enabled sp = true
                        /\ entry_matches tag sp /\ r = (printer sp, val))
  /\ (call_tag sps (Some tag) val = None
      <-> tag = ""
          \/ forall sp, In sp sps -> enabled sp = true -> ~ entry_matches tag sp).
Proof.
  unfold call_tag, falsy. destruct (String.eqb_spec tag "") as [-> | Hne].
  - split; [discriminate | split; [now left | reflexivity]].
  - pose proof (entry_test_iff tag) as T.
    set (index := find_match_brackets tag) in *. clearbody index.
    induction sps as [|sp sps [IHs IHc]]; cbn [call_loop].
    + split; [discriminate |]. split; [right; intros sp [] | reflexivity].
    + specialize (T sp Hne). destruct (enabled sp) eqn:En; cbn [negb].
      * destruct (is_template sp) eqn:Et.
        -- destruct (_ && _) eqn:Ec.
           ++ split.
              ** intros r [= <-]. exists sp. repeat split; try assumption.
                 { now left. } { now apply T. }
              ** split; [discriminate |]. intros [E | Hno]; [contradiction |].
                 exfalso. apply (Hno sp); [now left | assumption | now apply T].
           ++ split.
              ** intros r Hr. destruct (IHs r Hr) as (sp' & Hin & H').
                 exists sp'. split; [now right | exact H'].
              ** rewrite IHc. split; intros [E | Hno]; try (now left); right.
                 { intros sp' [<- | Hin] En'; [| now apply Hno].
                   intros HM. apply T in HM. congruence. }
                 { intros sp' Hin. apply Hno. now right. }
        -- destruct (String.eqb _ _) eqn:Ec.
           ++ split.
              ** intros r [= <-]. exists sp. repeat split; try assumption.
                 { now left. } { now apply T. }
              ** split; [discriminate |]. intros [E | Hno]; [contradiction |].
                 exfalso. apply (Hno sp); [now left | assumption | now apply T].
           ++ split.
              ** intros r Hr. destruct (IHs r Hr) as (sp' & Hin & H').
                 exists sp'. split; [now right | exact H'].
              ** rewrite IHc. split; intros [E | Hno]; try (now left); right.
                 { intros sp' [<- | Hin] En'; [| now apply Hno].
                   intros HM. apply T in HM. congruence. }
                 { intros sp' Hin. apply Hno. now right. }
      * split.
        -- intros r Hr. destruct (IHs r Hr) as (sp' & Hin & H').
           exists sp'. split; [now right | exact H'].
        -- rewrite IHc. split; intros [E | Hno]; try (now left); right.
           { intros sp' [<- | Hin] En'; [congruence | now apply Hno]. }
           { intros sp' Hin. apply Hno. now right. }
Qed.

(** X9: the dispatcher is sound and complete for [entry_matches].  What it
    returns is the printer of an enabled entry meant for the type name (for
    a templated entry: the name ends with the bracket that closes its first
    "<" and starts with the entry's prefix; otherwise: the name is the
    prefix), built on the value it was given; and it returns nothing only
    when the name is empty or no enabled entry is meant for it. *)
Theorem dispatch_sound_and_complete sps (tag : string) val :
  (forall r, call_tag sps (Some tag) val = Some r ->
             exists sp, In sp sps /\ enabled sp = true
                        /\ entry_matches tag sp /\ r = (printer sp, val))
  /\ (call_tag sps (Some tag) val = None
      <-> tag = ""
          \/ forall sp, In sp sps -> enabled sp = true -> ~ entry_matches tag sp).
Proof. exact (call_tag_spec sps tag val). Qed.

Lemma not_closed_with_suffix (tag suffix : string) :
  closes_at_end tag -> suffix <> "" -> ~ closes_at_end (tag ++ suffix).
Proof.
  intros (pre & body & -> & Hno & Hb) Hs HC.
  apply closes_at_end_iff in HC as [E _].
  destruct (proj2 (find_match_brackets_spec
                     ((pre ++ "<" ++ body ++ ">") ++ suffix)
                     (Py.len pre + 1 + Py.len body))) as [Ej _].
  { exists pre, body, suffix. rewrite !append_assoc. now repeat split. }
  rewrite Ej in E. unfold Py.len in E. rewrite !length_append in E. simpl in E.
  apply Hs, length_zero_empty. lia.
Qed.

(** X10: in a collection of templated entries, a type nested in a template
    gets no printer: after a name that ends with the bracket closing its
    first "<", any further text (as in "Map<K, V>::iterator") makes the
    dispatcher return nothing. *)
Theorem nested_type_gets_no_printer sps (tag suffix : string) val :
  Forall (fun sp => is_template sp = true) sps ->
  closes_at_end tag ->
  suffix <> "" ->
  call_tag sps (Some (tag ++ suffix)) val = None.
Proof.
  intros Hall Hc Hs. apply (call_tag_spec sps (tag ++ suffix) val). right.
  intros sp Hin _ HM. rewrite Forall_forall in Hall. specialize (Hall sp Hin).
  unfold entry_matches in HM. rewrite Hall in HM. destruct HM as [HC _].
  now apply (not_closed_with_suffix tag suffix).
Qed.

Lemma registered_prefix_exclusive (p p' : Printer) (rest rest' : string) :
  registered_prefix p ++ rest = registered_prefix p' ++ rest' -> p = p'.
Proof. destruct p, p'; simpl; intros H; try reflexivity; discriminate H. Qed.

(** X11: the collection [build_pretty_printer] builds gives a type name the
    printer [p] exactly when the name ends with the bracket that closes its
    first "<" and starts with the prefix registered for [p]; no name starts
    with two of the registered prefixes, so the printer does not depend on
    the order of the registrations. *)
Theorem built_collection_dispatch :
  exists pp,
    build_pretty_printer = Ok pp
    /\ forall (tag : string) val (p : Printer),
         call_tag pp (Some tag) val = Some (p, val)
         <-> closes_at_end tag /\ exists rest, tag = registered_prefix p ++ rest.
Proof.
  eexists. split; [vm_compute; reflexivity |]. intros tag val p.
  match goal with |- call_tag ?l _ _ = _ <-> _ => set (pp := l) end.
  destruct (call_tag_spec pp tag val) as [Hs Hc].
  assert (Hpp : forall sp, In sp pp ->
                           enabled sp = true /\ is_template sp = true
                           /\ prefix sp = registered_prefix (printer sp)).
  { intros sp Hin. simpl in Hin.
    repeat (destruct Hin as [<- | Hin]; [now repeat split |]). contradiction. }
  assert (Hin : exists sp, In sp pp /\ printer sp = p).
  { pose (d := templated "" "" BoostOptionalPrinter).
    destruct p;
      [exists (nth 1 pp d) | exists (nth 3 pp d) | exists (nth 0 pp d)
      | exists (nth 2 pp d) | exists (nth 4 pp d)];
      (split; [simpl; tauto | reflexivity]). }
  split.
  - intros H. destruct (Hs _ H) as (sp & Hi & _ & HM & [= -> ]).
    destruct (Hpp sp Hi) as (_ & Ht & Hp).
    unfold entry_matches in HM. rewrite Ht, Hp in HM. exact HM.
  - intros [HC (rest & Hr)].
    destruct Hin as (sp & Hi & <-). destruct (Hpp sp Hi) as (En & Ht & Hp).
    destruct (call_tag pp (Some tag) val) as [r |] eqn:E.
    + destruct (Hs r eq_refl) as (sp' & Hi' & _ & HM' & ->).
      destruct (Hpp sp' Hi') as (_ & Ht' & Hp').
      unfold entry_matches in HM'. rewrite Ht', Hp' in HM'.
      destruct HM' as [_ (rest' & Hr')].
      rewrite Hr in Hr'. apply registered_prefix_exclusive in Hr'.
      now rewrite Hr'.
    + exfalso. destruct (proj1 Hc eq_refl) as [-> | Hno].
      * destruct HC as (pre & body & Hp0 & _). destruct pre; discriminate.
      * apply (Hno sp Hi En). unfold entry_matches. rewrite Ht, Hp.
        split; [exact HC | now exists rest].
Qed.

End Dispatch.

Lemma nested_type_gets_no_printer_witness :
  call_tag [templated "flat_hash_map" "absl::lts_20240116::flat_hash_map"
                      AbslFlatHashMapPrinter]
           (Some ("absl::lts_20240116::flat_hash_map<int, int>" ++ "::iterator")) tt
  = None.
Proof.
  apply (nested_type_gets_no_printer
           [templated "flat_hash_map" "absl::lts_20240116::flat_hash_map"
                      AbslFlatHashMapPrinter]
           "absl::lts_20240116::flat_hash_map<int, int>" "::iterator" tt).
  - repeat constructor.
  - exists "absl::lts_20240116::flat_hash_map", "int, int".
    repeat split. apply (proj1 (find_none_iff _ _)). reflexivity.
  - discriminate.
Defined.

(** ** The name resolver and the table accessor, further *)

Section ResolverFurther.

Context {Value GType Block : Type} (gdb : Oracle Value GType Block).

Implicit Types w : World Value GType Block.

(** X12: the only change [lookup_type] ever makes to [MAIN_GLOBAL_BLOCK] is
    to replace [None] by main's global block, as the debugger resolves it:
    an unbound global stays unbound, a cached block is never replaced, and
    nothing is cached when main cannot be resolved. *)
Theorem lookup_type_global_invariant (name : string) w :
  MAIN_GLOBAL_BLOCK (snd (lookup_type gdb name w)) = MAIN_GLOBAL_BLOCK w
  \/ (MAIN_GLOBAL_BLOCK w = Bound None
      /\ exists b, gdb_global_block_of gdb "main" = Ok b
                   /\ MAIN_GLOBAL_BLOCK (snd (lookup_type gdb name w))
                      = Bound (Some b)).
Proof.
  unfold lookup_type, try_except, gdb_lookup, gdb_lookup_in, global_block_of,
    bind, ask, ret, raise, get_MAIN_GLOBAL_BLOCK, set_MAIN_GLOBAL_BLOCK.
  destruct (gdb_lookup_type gdb name) as [t | e]; cbn; [now left |].
  destruct (is_Exception e); cbn; [| now left].
  destruct (MAIN_GLOBAL_BLOCK w) as [| [b |]] eqn:G; cbn; [now left | |].
  - left. destruct (gdb_lookup_type_in gdb name b) as [t | e2]; cbn; [exact G |].
    destruct (is_Exception e2); exact G.
  - destruct (gdb_global_block_of gdb "main") as [b | e0]; cbn; [right | now left].
    split; [reflexivity |]. exists b. split; [reflexivity |].
    destruct (gdb_lookup_type_in gdb name b) as [t | e2]; cbn; [reflexivity |].
    destruct (is_Exception e2); reflexivity.
Qed.


(** X14: the two spellings of the storage type are tried in order.  When
    the first is known the second is never looked up; when neither is known
    the failure of the second lookup is what the caller gets, and no field
    of the value has been read. *)
Theorem settings_lookups_in_order (val : Value) w :
  (forall ty,
      gdb_lookup_type gdb first_spelling = Ok ty ->
      absl_get_settings gdb val w
      = read_settings gdb val ty (log (EvLookupType first_spelling) w))
  /\ (forall msg e2,
         gdb_lookup_type gdb first_spelling = Raise (gdb_error msg) ->
         Py.startswith msg "No type named " = true ->
         gdb_lookup_type gdb second_spelling = Raise e2 ->
         absl_get_settings gdb val w
         = (Raise e2,
            log (EvLookupType second_spelling) (log (EvLookupType first_spelling) w))).
Proof.
  split.
  - intros ty H1. unfold absl_get_settings, try_except, bind at 1 2.
    rewrite first_candidate_is. unfold gdb_lookup at 1, ask at 1. now rewrite H1.
  - intros msg e2 H1 Hmsg H2. unfold absl_get_settings, try_except, bind at 1 2.
    rewrite first_candidate_is. unfold gdb_lookup at 1, ask at 1.
    rewrite H1. cbn [is_gdb_error str_exn]. rewrite Hmsg. cbn [negb].
    unfold bind at 1. rewrite second_candidate_is.
    unfold gdb_lookup, ask. now rewrite H2.
Qed.

(** X15: the one-line summary is cheap.  For every printer, [to_string]
    reads no element of an array, never asks for the control bytes or the
    slots, and leaves [MAIN_GLOBAL_BLOCK] as it was (it makes no call of
    [lookup_type]). *)
Theorem summary_reads_no_array (p : Printer) (val : Value) w :
  extends away_from_arrays w (snd (to_string gdb p val w))
  /\ MAIN_GLOBAL_BLOCK (snd (to_string gdb p val w)) = MAIN_GLOBAL_BLOCK w.
Proof.
  split.
  - revert w. change (logs away_from_arrays (to_string gdb p val)).
    destruct p; unfold to_string, hash_set_to_string, hash_map_to_string,
      absl_container_size, str, field;
      repeat first [ apply settings_logs | progress run_steps ].
  - revert w. change (keeps (to_string gdb p val)).
    destruct p; unfold to_string, hash_set_to_string, hash_map_to_string,
      absl_container_size, str, field;
      repeat first [ apply settings_keeps | progress run_steps ].
Qed.

End ResolverFurther.


Lemma settings_lookups_in_order_witness :
  absl_get_settings (Toy.oracle Toy.scenario) Toy.Table module_loaded
  = read_settings (Toy.oracle Toy.scenario) Toy.Table Toy.StorageType
                  (log (EvLookupType first_spelling) module_loaded).
Proof.
  apply (proj1 (settings_lookups_in_order (Toy.oracle Toy.scenario) Toy.Table
                                          module_loaded)).
  reflexivity.
Defined.

(** ** The slot walker, further *)

Section Scan.

Context {Value GType Block : Type} (gdb : Oracle Value GType Block).

Implicit Types w : World Value GType Block.

Lemma runs_to_drain {A} (l : list A) (r : result unit)
      (s : @GenStep Value GType Block A) :
  runs_to l r s ->
  fst (fst (drain_step s)) = l /\ snd (fst (drain_step s)) = r.
Proof.
  induction 1 as [w | e w | a l r w next _ IH]; simpl; try (now split).
  specialize (IH w). destruct (drain_step (next w)) as [[l' r'] w'].
  simpl in *. destruct IH as [-> ->]. now split.
Qed.

Lemma drain_yield_world {A} (a : A) w (next : World Value GType Block -> GenStep A) :
  snd (drain_step (Yielded a w next)) = snd (drain_step (next w)).
Proof. simpl. now destruct (drain_step (next w)) as [[l r] w']. Qed.

(** The loop never takes an event out of the log. *)
Lemma loop_keeps_log (settings ctrl : Value) (slot_type : GType)
      (items : list Z) (ev : Event Value GType Block) w :
  In ev (trace w) ->
  In ev (trace (snd (drain_step
                       (absl_get_nodes_loop gdb settings ctrl slot_type items w)))).
Proof.
  revert w; induction items as [|item items IH]; intros w H; [exact H |].
  cbn [absl_get_nodes_loop]. unfold bind, index, int, field, lift, cast, ask.
  destruct (value_index gdb ctrl item) as [cb | e]; [| simpl; tauto].
  destruct (value_int gdb cb) as [ctrl_t | e]; [| simpl; tauto].
  destruct (ctrl_t >=? 0); [| apply IH; simpl; tauto].
  destruct (value_field gdb settings "slots_") as [s | e]; [| simpl; tauto].
  destruct (type_pointer gdb slot_type) as [p | e]; [| simpl; tauto].
  destruct (value_cast gdb s p) as [a | e]; [| simpl; tauto].
  destruct (value_index gdb a item) as [node | e]; [| simpl; tauto].
  rewrite drain_yield_world. apply IH. simpl; tauto.
Qed.

Section Entered.

(** A table the walker gets into: settings and size resolve, the size is
    not 0, and the capacity and the control bytes' handle can be read. *)
Variables (val settings size cap ctrl : Value) (c : Z).
Variable w : World Value GType Block.

Hypothesis entered_settings : answers (absl_get_settings gdb val) settings.
Hypothesis entered_size : answers (absl_container_size gdb settings) size.
Hypothesis entered_not_empty : value_eq_int gdb size 0 = Ok false.
Hypothesis entered_capacity_field : value_field gdb settings "capacity_" = Ok cap.
Hypothesis entered_capacity : value_int gdb cap = Ok c.
Hypothesis entered_control : value_field gdb settings "control_" = Ok ctrl.

(** Up to the lookup of the slot type. *)
Lemma walker_reaches_slot_type :
  exists w5,
    absl_get_nodes gdb val w
    = gen_do (resolve_slot_type gdb val)
             (fun slot_type =>
                absl_get_nodes_loop gdb settings ctrl slot_type (Py.range 0 c)) w5
    /\ MAIN_GLOBAL_BLOCK w5 = MAIN_GLOBAL_BLOCK w
    /\ extends away_from_slots w w5.
Proof.
  unfold absl_get_nodes.
  rewrite (gen_do_ok _ _ settings) by apply entered_settings.
  pose proof (settings_keeps gdb val w) as K1.
  pose proof (settings_logs gdb val w) as L1.
  set (w1 := snd (absl_get_settings gdb val w)) in *.
  rewrite (gen_do_ok _ _ size) by apply entered_size.
  pose proof (size_keeps gdb settings w1) as K2.
  pose proof (size_logs gdb settings w1) as L2.
  set (w2 := snd (absl_container_size gdb settings w1)) in *.
  rewrite (gen_do_ok _ _ false) by (unfold eq_int, ask; simpl; exact entered_not_empty).
  rewrite (gen_do_ok _ _ c)
    by (unfold bind, field, int, ask; rewrite entered_capacity_field, entered_capacity;
        reflexivity).
  rewrite (gen_do_ok _ _ ctrl) by (unfold field, ask; simpl; exact entered_control).
  eexists. split; [reflexivity | split].
  - unfold bind, field, int, eq_int, ask.
    rewrite entered_capacity_field. simpl. congruence.
  - apply away_weaken in L1. apply away_weaken in L2.
    eapply extends_trans; [exact L1 |]. eapply extends_trans; [exact L2 |].
    unfold bind, field, int, eq_int, ask. rewrite entered_capacity_field. cbn.
    exists [EvField settings "control_"; EvInt cap; EvField settings "capacity_";
            EvEq size 0].
    split; reflexivity.
Qed.

(** Where the slot type cannot be resolved the walker ends there. *)
Lemma walker_ends_at_slot_type (e : exn) :
  (forall tr,
      fst (resolve_slot_type gdb val
             {| MAIN_GLOBAL_BLOCK := MAIN_GLOBAL_BLOCK w; trace := tr |})
      = Raise e) ->
  exists w6, absl_get_nodes gdb val w = Raised e w6 /\ extends away_from_slots w w6.
Proof.
  intros Hr. destruct walker_reaches_slot_type as (w5 & -> & K5 & X5).
  unfold gen_do. pose proof (slot_type_logs gdb val w5) as L.
  rewrite (world_eta w5 _ K5) in *. specialize (Hr (trace w5)).
  destruct (resolve_slot_type gdb val _) as [r w6]. simpl in Hr, L. subst r.
  exists w6. split; [reflexivity |].
  eapply extends_trans; [exact X5 | now apply away_weaken].
Qed.

(** X16: the slot type is looked up before any control byte is read.  When
    it cannot be resolved, the walker yields nothing and raises what the
    lookup raised, however many control bytes are non-negative; no element
    of an array has been read and the slot array was never asked for. *)
Theorem walker_needs_slot_type (e : exn) :
  (forall tr,
      fst (resolve_slot_type gdb val
             {| MAIN_GLOBAL_BLOCK := MAIN_GLOBAL_BLOCK w; trace := tr |})
      = Raise e) ->
  yielded (absl_get_nodes gdb val) w = []
  /\ outcome (absl_get_nodes gdb val) w = Raise e
  /\ extends away_from_slots w (world_after (absl_get_nodes gdb val) w).
Proof.
  intros Hr. destruct (walker_ends_at_slot_type e Hr) as (w6 & E & X).
  unfold yielded, outcome, world_after, drain. rewrite E. now repeat split.
Qed.

(** X17: right after the file is loaded ([MAIN_GLOBAL_BLOCK] unbound), when
    the default scope does not know the slot type, no container printer
    shows any child: [children] yields nothing and raises the [NameError]
    of the unbound global, whatever main's global block holds. *)
Theorem children_after_load (p : Printer) (t0 : GType) (n : string) (e : exn) :
  MAIN_GLOBAL_BLOCK w = Unbound ->
  type_strip_typedefs gdb (value_type gdb val) = Ok t0 ->
  type_str gdb t0 = Ok n ->
  gdb_lookup_type gdb (n ++ "::slot_type") = Raise e ->
  is_Exception e = true ->
  p <> BoostOptionalPrinter ->
  yielded (children gdb p val) w = []
  /\ outcome (children gdb p val) w = Raise (NameError "MAIN_GLOBAL_BLOCK").
Proof.
  intros G Ht Hn Hl He Hp.
  destruct (walker_ends_at_slot_type (NameError "MAIN_GLOBAL_BLOCK")) as (w6 & E & _).
  { intros tr. rewrite G.
    unfold resolve_slot_type, slot_type_name, lookup_type, try_except, gdb_lookup,
      bind, lift, ret, ask, get_MAIN_GLOBAL_BLOCK.
    rewrite Ht, Hn, Hl, He. reflexivity. }
  unfold yielded, outcome, drain, children.
  destruct p; try contradiction; rewrite E; split; reflexivity.
Qed.

Section Prefix.

(** The slot type resolves, and the control bytes up to some index read as
    [bs], the slots of the non-negative ones being readable. *)
Variables (slot_type : GType) (bs : list Z) (slot : nat -> Value).

Hypothesis prefix_slot_type :
  forall tr,
    fst (resolve_slot_type gdb val
           {| MAIN_GLOBAL_BLOCK := MAIN_GLOBAL_BLOCK w; trace := tr |})
    = Ok slot_type.
Hypothesis prefix_in_capacity : Z.of_nat (List.length bs) <= c.
Hypothesis prefix_bytes :
  forall i b, nth_error bs i = Some b ->
    exists cb, value_index gdb ctrl (Z.of_nat i) = Ok cb /\ value_int gdb cb = Ok b.
Hypothesis prefix_slots :
  forall i b, nth_error bs i = Some b -> 0 <= b ->
    exists slots ptr arr,
      value_field gdb settings "slots_" = Ok slots
      /\ type_pointer gdb slot_type = Ok ptr
      /\ value_cast gdb slots ptr = Ok arr
      /\ value_index gdb arr (Z.of_nat i) = Ok (slot i).

Lemma walker_enters_loop :
  exists w6,
    absl_get_nodes gdb val w
    = absl_get_nodes_loop gdb settings ctrl slot_type (Py.range 0 c) w6.
Proof.
  destruct walker_reaches_slot_type as (w5 & -> & K5 & _).
  rewrite (gen_do_ok _ _ slot_type)
    by (rewrite (world_eta w5 _ K5); apply prefix_slot_type).
  eexists. reflexivity.
Qed.

(** The loop gets through the readable bytes: from index [i], with the
    bytes [bs'] of [bs] still ahead. *)
Lemma loop_through_prefix (bs' : list Z) (i : nat) :
  (forall j b, nth_error bs' j = Some b -> nth_error bs (i + j) = Some b) ->
  Z.of_nat (i + List.length bs') <= c ->
  (forall k w', (i <= k < i + List.length bs')%nat ->
     In (EvIndex ctrl (Z.of_nat k))
        (trace (snd (drain_step
                       (absl_get_nodes_loop gdb settings ctrl slot_type
                          (Py.range (Z.of_nat i) c) w')))))
  /\ (forall l r,
        (forall w', runs_to l r
                      (absl_get_nodes_loop gdb settings ctrl slot_type
                         (Py.range (Z.of_nat (i + List.length bs')) c) w')) ->
        forall w', runs_to (map slot (occupied_from i bs') ++ l)%list r
                     (absl_get_nodes_loop gdb settings ctrl slot_type
                        (Py.range (Z.of_nat i) c) w')).
Proof.
  revert i; induction bs' as [|b bs' IH]; intros i Hbs Hc.
  - split; [intros k w' Hk; simpl in Hk; lia |].
    intros l r H w'. rewrite Nat.add_0_r in H. apply H.
  - assert (Hb : nth_error bs i = Some b)
      by (rewrite <- (Nat.add_0_r i); now apply Hbs).
    destruct (IH (S i)) as [IHr IHy].
    { intros j b' Hj. replace (S i + j)%nat with (i + S j)%nat by lia. now apply Hbs. }
    { simpl in Hc. lia. }
    assert (Hstep : Py.range (Z.of_nat i) c
                    = Z.of_nat i :: Py.range (Z.of_nat (S i)) c).
    { rewrite range_cons by (simpl in Hc; lia). f_equal. f_equal. lia. }
    destruct (prefix_bytes i b Hb) as (cb & Hcb & Hint).
    split.
    + intros k w' Hk. rewrite Hstep. cbn [absl_get_nodes_loop].
      unfold bind at 1, index at 1, ask at 1. rewrite Hcb.
      unfold int at 1, ask at 1. rewrite Hint.
      rewrite Z.geb_leb. destruct (Z.leb_spec 0 b) as [Hpos | Hneg].
      * destruct (prefix_slots i b Hb Hpos) as (slots & ptr & arr & Hs & Hp & Ha & Hi).
        unfold bind, field, lift, cast, index, ask. rewrite Hs, Hp, Ha, Hi.
        rewrite drain_yield_world.
        destruct (Nat.eq_dec k i) as [-> | Hne].
        -- apply loop_keeps_log. simpl. tauto.
        -- apply IHr. simpl in Hk. lia.
      * destruct (Nat.eq_dec k i) as [-> | Hne].
        -- apply loop_keeps_log. simpl. tauto.
        -- apply IHr. simpl in Hk. lia.
    + intros l r H w'. rewrite Hstep. cbn [absl_get_nodes_loop occupied_from].
      unfold bind at 1, index at 1, ask at 1. rewrite Hcb.
      unfold int at 1, ask at 1. rewrite Hint.
      assert (H' : forall w'', runs_to l r
                     (absl_get_nodes_loop gdb settings ctrl slot_type
                        (Py.range (Z.of_nat (S i + List.length bs')) c) w'')).
      { intros w''. replace (S i + List.length bs')%nat
          with (i + List.length (b :: bs'))%nat by (simpl; lia). apply H. }
      rewrite Z.geb_leb. destruct (Z.leb_spec 0 b) as [Hpos | Hneg].
      * destruct (prefix_slots i b Hb Hpos) as (slots & ptr & arr & Hs & Hp & Ha & Hi).
        unfold bind, field, lift, cast, index, ask. rewrite Hs, Hp, Ha, Hi.
        cbn [map app]. constructor. intros w''. now apply IHy.
      * now apply IHy.
Qed.


(** X19: a control byte that cannot be read ends the walk there.  The
    slots occupied before it have been yielded, in order, and then the
    walker raises what the read raised. *)
Theorem walker_stops_at_unreadable_byte (e : exn) :
  Z.of_nat (List.length bs) < c ->
  value_index gdb ctrl (Z.of_nat (List.length bs)) = Raise e ->
  yielded (absl_get_nodes gdb val) w = map slot (occupied bs)
  /\ outcome (absl_get_nodes gdb val) w = Raise e.
Proof.
  intros Hlt He. destruct walker_enters_loop as (w6 & E).
  assert (R : runs_to (map slot (occupied bs) ++ [])%list (Raise e)
                (absl_get_nodes_loop gdb settings ctrl slot_type (Py.range 0 c) w6)).
  { apply (proj2 (loop_through_prefix bs 0 ltac:(now intros) prefix_in_capacity)).
    intros w'. rewrite range_cons by (simpl; lia).
    cbn [absl_get_nodes_loop]. unfold bind, index, ask. simpl Nat.add. rewrite He.
    constructor. }
  rewrite app_nil_r in R. apply runs_to_drain in R as [Hy Ho].
  unfold yielded, outcome, drain. rewrite E. now split.
Qed.

Lemma walker_enters_loop_quietly :
  exists w6,
    absl_get_nodes gdb val w
    = absl_get_nodes_loop gdb settings ctrl slot_type (Py.range 0 c) w6
    /\ extends away_from_slots w w6.
Proof.
  destruct walker_reaches_slot_type as (w5 & -> & K5 & X5).
  pose proof (slot_type_logs gdb val w5) as L. apply away_weaken in L.
  rewrite (gen_do_ok _ _ slot_type)
    by (rewrite (world_eta w5 _ K5); apply prefix_slot_type).
  eexists. split; [reflexivity |]. eapply extends_trans; eassumption.
Qed.

Lemma quiet_reads_nothing (bound : Z) w1 w2 :
  extends away_from_slots w1 w2 -> extends (reads_up_to bound) w1 w2.
Proof.
  intros (evs & H & F). exists evs. split; [exact H |].
  rewrite forallb_forall in *. intros ev Hev. specialize (F ev Hev).
  destruct ev; try reflexivity. discriminate F.
Qed.

(** The loop runs over negative bytes to the first non-negative one and
    yields there. *)
Lemma loop_first_yield (negatives : list Z) (b : Z) (i : nat) wa :
  Forall (fun x => x < 0) negatives ->
  0 <= b ->
  (forall j x, nth_error (negatives ++ [b]) j = Some x ->
               nth_error bs (i + j) = Some x) ->
  exists w' next,
    absl_get_nodes_loop gdb settings ctrl slot_type (Py.range (Z.of_nat i) c) wa
    = Yielded (slot (i + List.length negatives)) w' next
    /\ extends (reads_up_to (Z.of_nat (i + List.length negatives))) wa w'.
Proof.
  revert i wa; induction negatives as [|x negatives IH]; intros i wa Hneg Hb Hbs.
  - assert (Hi : nth_error bs i = Some b)
      by (rewrite <- (Nat.add_0_r i); now apply Hbs).
    assert (Hlt : (i < List.length bs)%nat)
      by (apply (proj1 (nth_error_Some bs i)); congruence).
    rewrite range_cons by lia. cbn [absl_get_nodes_loop].
    destruct (prefix_bytes i b Hi) as (cb & Hcb & Hint).
    destruct (prefix_slots i b Hi Hb) as (slots & ptr & arr & Hs & Hp & Ha & Hx).
    unfold bind, index, int, field, lift, cast, ask. rewrite Hcb, Hint.
    rewrite Z.geb_leb. destruct (Z.leb_spec 0 b) as [_ | Hn]; [| lia].
    rewrite Hs, Hp, Ha, Hx. cbn [List.length]. rewrite Nat.add_0_r.
    do 2 eexists. split; [reflexivity |].
    exists [EvIndex arr (Z.of_nat i); EvCast slots ptr; EvField settings "slots_";
            EvInt cb; EvIndex ctrl (Z.of_nat i)].
    split; [reflexivity |]. cbn. rewrite Z.leb_refl. reflexivity.
  - assert (Hi : nth_error bs i = Some x)
      by (rewrite <- (Nat.add_0_r i); now apply Hbs).
    assert (Hlt : (i < List.length bs)%nat)
      by (apply (proj1 (nth_error_Some bs i)); congruence).
    inversion Hneg as [| ? ? Hx Hneg']; subst.
    rewrite range_cons by lia. cbn [absl_get_nodes_loop].
    destruct (prefix_bytes i x Hi) as (cb & Hcb & Hint).
    unfold bind at 1, index at 1, ask at 1. rewrite Hcb.
    unfold int at 1, ask at 1. rewrite Hint.
    rewrite Z.geb_leb. destruct (Z.leb_spec 0 x) as [Hn | _]; [lia |].
    replace (Z.of_nat i + 1) with (Z.of_nat (S i)) by lia.
    destruct (IH (S i) (log (EvInt cb) (log (EvIndex ctrl (Z.of_nat i)) wa)) Hneg' Hb)
      as (w' & next & E & X).
    { intros j y Hj. replace (S i + j)%nat with (i + S j)%nat by lia. now apply Hbs. }
    exists w', next.
    replace (i + List.length (x :: negatives))%nat
      with (S i + List.length negatives)%nat by (simpl; lia).
    split; [exact E |].
    eapply extends_trans; [| exact X].
    exists [EvInt cb; EvIndex ctrl (Z.of_nat i)]. split; [reflexivity |].
    cbn [forallb reads_up_to]. rewrite (proj2 (Z.leb_le _ _)) by lia. reflexivity.
Qed.

(** X23: the walker is lazy.  When the control bytes before index [n] are
    negative and the one at [n] is not, the walker yields slot [n] as its
    first element having read no element beyond index [n] of any array: the
    control bytes after [n] are read only when the consumer asks for more. *)
Theorem walker_first_element_is_lazy (negatives : list Z) (b : Z) :
  Forall (fun x => x < 0) negatives ->
  0 <= b ->
  (forall j x, nth_error (negatives ++ [b]) j = Some x -> nth_error bs j = Some x) ->
  exists w' next,
    absl_get_nodes gdb val w = Yielded (slot (List.length negatives)) w' next
    /\ extends (reads_up_to (Z.of_nat (List.length negatives))) w w'.
Proof.
  intros Hneg Hb Hbs. destruct walker_enters_loop_quietly as (w6 & -> & X6).
  destruct (loop_first_yield negatives b 0 w6 Hneg Hb Hbs) as (w' & next & E & X).
  exists w', next. split; [exact E |].
  eapply extends_trans; [apply quiet_reads_nothing; exact X6 | exact X].
Qed.

End Prefix.

End Entered.

End Scan.

Lemma walker_needs_slot_type_witness :
  yielded (absl_get_nodes (Toy.oracle toy_main_only) Toy.Table) module_loaded = []
  /\ outcome (absl_get_nodes (Toy.oracle toy_main_only) Toy.Table) module_loaded
     = Raise (NameError "MAIN_GLOBAL_BLOCK")
  /\ extends away_from_slots module_loaded
       (world_after (absl_get_nodes (Toy.oracle toy_main_only) Toy.Table)
                    module_loaded).
Proof.
  apply (walker_needs_slot_type
           (Toy.oracle toy_main_only) Toy.Table Toy.Common Toy.Size Toy.Capacity
           Toy.Control 7 module_loaded); try (intros ?); reflexivity.
Defined.

Lemma children_after_load_witness :
  Toy.lookup_in_main (Toy.table_name ++ "::slot_type") = Ok Toy.SlotType
  /\ yielded (children (Toy.oracle toy_main_only) AbslFlatHashSetPrinter Toy.Table)
             module_loaded = []
  /\ outcome (children (Toy.oracle toy_main_only) AbslFlatHashSetPrinter Toy.Table)
             module_loaded
     = Raise (NameError "MAIN_GLOBAL_BLOCK").
Proof.
  split; [reflexivity |].
  apply (children_after_load
           (Toy.oracle toy_main_only) Toy.Table Toy.Common Toy.Size Toy.Capacity
           Toy.Control 7 module_loaded
           ltac:(intros ?; reflexivity) ltac:(intros ?; reflexivity)
           eq_refl eq_refl eq_refl eq_refl
           AbslFlatHashSetPrinter Toy.TableType Toy.table_name
           (Toy.no_type (Toy.table_name ++ "::slot_type")));
    try reflexivity. discriminate.
Defined.


Lemma walker_stops_at_unreadable_byte_witness :
  yielded (absl_get_nodes (toy_torn Toy.scenario 4) Toy.Table) module_loaded
  = map toy_slot (occupied [-1; -1; 0; 0])
  /\ outcome (absl_get_nodes (toy_torn Toy.scenario 4) Toy.Table) module_loaded
     = Raise (gdb_error "Cannot access memory at address 0x0").
Proof.
  apply (walker_stops_at_unreadable_byte
           (toy_torn Toy.scenario 4) Toy.Table Toy.Common Toy.Size Toy.Capacity
           Toy.Control 7 module_loaded
           ltac:(intros ?; reflexivity) ltac:(intros ?; reflexivity)
           eq_refl eq_refl eq_refl eq_refl
           Toy.SlotType [-1; -1; 0; 0] toy_slot
           ltac:(intros ?; reflexivity) ltac:(simpl; lia)).
  - intros i b H.
    assert (Hi : (i < 4)%nat)
      by (apply (proj1 (nth_error_Some [-1; -1; 0; 0] i)); congruence).
    exists (Toy.Ctrl (Z.of_nat i)). split.
    + cbn. destruct (Z.ltb_spec (Z.of_nat i) 4); [reflexivity | lia].
    + do 4 (destruct i as [|i]; [simpl in H |- *; congruence |]). lia.
  - intros i b H Hb. exists Toy.Slots, Toy.SlotPointer, Toy.SlotArray.
    repeat split; reflexivity.
  - simpl. lia.
  - reflexivity.
Defined.

Example torn_table_scenario :
  drain (absl_get_nodes (toy_torn Toy.scenario 4) Toy.Table) module_loaded
  = ([Toy.Slot 2; Toy.Slot 3],
     Raise (gdb_error "Cannot access memory at address 0x0"),
     world_after (absl_get_nodes (toy_torn Toy.scenario 4) Toy.Table) module_loaded).
Proof. reflexivity. Qed.

(** ** Identifiers *)

Lemma concat_empty_cons (x : string) (l : list string) :
  String.concat "" (x :: l) = x ++ String.concat "" l.
Proof. destruct l; simpl; [now rewrite append_nil_r | reflexivity]. Qed.

Lemma byte_text_ok_all :
  forallb byte_text_ok (map Z.of_nat (seq 0 256)) = true.
Proof. vm_compute. reflexivity. Qed.

Lemma byte_text_spec (b : Z) :
  exists c1 c2 h l,
    byte_text b = String c1 (String c2 "")
    /\ lower_hex c1 = true /\ lower_hex c2 = true
    /\ hex_value c1 = Some h /\ hex_value c2 = Some l
    /\ 16 * h + l = b mod 256.
Proof.
  assert (Hm : 0 <= b mod 256 < 256) by (apply Z.mod_pos_bound; lia).
  assert (E : byte_text b = byte_text (b mod 256)).
  { unfold byte_text. f_equal. f_equal. f_equal.
    change 0xFF with (Z.ones 8). rewrite !Z.land_ones by lia.
    change (2 ^ 8) with 256. now rewrite Z.mod_mod by lia. }
  pose proof byte_text_ok_all as A. rewrite forallb_forall in A.
  specialize (A (b mod 256)).
  assert (Hin : In (b mod 256) (map Z.of_nat (seq 0 256))).
  { apply in_map_iff. exists (Z.to_nat (b mod 256)). split; [lia |].
    apply in_seq. lia. }
  specialize (A Hin). unfold byte_text_ok in A. rewrite <- E in A.
  destruct (byte_text b) as [|c1 [|c2 [|]]]; try discriminate.
  destruct (hex_value c1) as [h |] eqn:Hh; [| discriminate].
  destruct (hex_value c2) as [l |] eqn:Hl; [| discriminate].
  apply andb_true_iff in A as [A A3]. apply andb_true_iff in A as [A1 A2].
  apply Z.eqb_eq in A3. exists c1, c2, h, l. now repeat split.
Qed.

Lemma tenant_id_text_spec (raw_bytes : list Z) :
  Py.len (tenant_id_text raw_bytes) = 2 * Z.of_nat (List.length raw_bytes)
  /\ all_chars lower_hex (tenant_id_text raw_bytes) = true
  /\ decode_pairs (List.length raw_bytes) (tenant_id_text raw_bytes)
     = Some (map (fun b => b mod 256) raw_bytes).
Proof.
  unfold tenant_id_text, Py.join, Py.len.
  induction raw_bytes as [|b l (IH1 & IH2 & IH3)]; [now repeat split |].
  cbn [map List.length]. rewrite concat_empty_cons.
  fold (byte_text b).
  destruct (byte_text_spec b) as (c1 & c2 & h & lo & -> & H1 & H2 & Hh & Hl & Hv).
  cbn [append String.length all_chars decode_pairs].
  rewrite H1, H2, Hh, Hl, IH2, IH3, Hv. repeat split. lia.
Qed.

(** X20: the text of an identifier is two hexadecimal digits in lower case
    for each number read, and reading the digits back gives each number
    modulo 256: a signed byte and the unsigned byte of the same bits have
    the same text. *)
Theorem tenant_id_text_round_trip (raw_bytes : list Z) :
  Py.len (tenant_id_text raw_bytes) = 2 * Z.of_nat (List.length raw_bytes)
  /\ all_chars lower_hex (tenant_id_text raw_bytes) = true
  /\ decode_pairs (List.length raw_bytes) (tenant_id_text raw_bytes)
     = Some (map (fun b => b mod 256) raw_bytes).
Proof. exact (tenant_id_text_spec raw_bytes). Qed.

Section TenantId.

Context {Value GType Block : Type} (gdb : Oracle Value GType Block).

Implicit Types w : World Value GType Block.

Variables (data : Value) (cell : Z -> Value) (byte : Z -> Z).

Lemma comprehension_reads (l : list Z) w :
  (forall i, In i l ->
             value_index gdb data i = Ok (cell i) /\ value_int gdb (cell i) = Ok (byte i)) ->
  comprehension l (fun i => v <- index gdb data i ;; int gdb v) w
  = (Ok (map byte l),
     {| MAIN_GLOBAL_BLOCK := MAIN_GLOBAL_BLOCK w;
        trace := (rev (cell_reads data cell l) ++ trace w)%list |}).
Proof.
  revert w; induction l as [|i l IH]; intros w H.
  - destruct w; reflexivity.
  - destruct (H i (or_introl eq_refl)) as [Hi Hb].
    cbn [comprehension]. unfold bind at 1 2, index, int, ask. rewrite Hi, Hb.
    unfold bind at 1. rewrite IH by (intros; apply H; now right).
    unfold ret. cbn [map cell_reads flat_map rev log MAIN_GLOBAL_BLOCK trace app].
    f_equal. f_equal. unfold cell_reads. now rewrite <- !app_assoc.
Qed.

Lemma comprehension_fails (l1 l2 : list Z) (j : Z) (e : exn) w :
  (forall i, In i l1 ->
             value_index gdb data i = Ok (cell i) /\ value_int gdb (cell i) = Ok (byte i)) ->
  value_index gdb data j = Raise e ->
  comprehension (l1 ++ j :: l2) (fun i => v <- index gdb data i ;; int gdb v) w
  = (Raise e,
     {| MAIN_GLOBAL_BLOCK := MAIN_GLOBAL_BLOCK w;
        trace := (EvIndex data j :: rev (cell_reads data cell l1) ++ trace w)%list |}).
Proof.
  revert w; induction l1 as [|i l1 IH]; intros w H Hj.
  - cbn [app comprehension]. unfold bind, index, ask. now rewrite Hj.
  - destruct (H i (or_introl eq_refl)) as [Hi Hb].
    cbn [app comprehension]. unfold bind at 1 2, index, int, ask. rewrite Hi, Hb.
    unfold bind at 1. rewrite IH by (try (intros; apply H; now right); assumption).
    cbn [cell_reads flat_map rev log MAIN_GLOBAL_BLOCK trace app].
    f_equal. f_equal. f_equal. unfold cell_reads. now rewrite <- !app_assoc.
Qed.

(** X21: [extract_tenant_id] reads the cells 1 to 12 of the value, in that
    order, each once, and no other (the cell 0 is skipped); when they can
    be read it returns the 24 hexadecimal digits of their bytes and leaves
    the module's global alone. *)
Theorem extract_tenant_id_reads w :
  (forall i, 1 <= i <= 12 ->
             value_index gdb data i = Ok (cell i) /\ value_int gdb (cell i) = Ok (byte i)) ->
  extract_tenant_id gdb data w
  = (Ok (tenant_id_text (map byte (Py.range 1 13))),
     {| MAIN_GLOBAL_BLOCK := MAIN_GLOBAL_BLOCK w;
        trace := (rev (cell_reads data cell (Py.range 1 13)) ++ trace w)%list |})
  /\ Py.len (tenant_id_text (map byte (Py.range 1 13))) = 24.
Proof.
  intros H. split.
  - unfold extract_tenant_id, bind.
    change (OBJECT_ID_WIDTH + 1) with 13.
    rewrite comprehension_reads; [reflexivity |].
    intros i Hi. apply H. unfold Py.range in Hi. apply in_map_iff in Hi.
    destruct Hi as (k & <- & Hk). apply in_seq in Hk. simpl in Hk. lia.
  - rewrite (proj1 (tenant_id_text_spec _)). reflexivity.
Qed.

Lemma range_app (a b c : Z) :
  a <= b <= c -> Py.range a c = (Py.range a b ++ Py.range b c)%list.
Proof.
  intros H. remember (Z.to_nat (b - a)) as n eqn:En.
  revert a H En; induction n as [|n IH]; intros a H En.
  - replace b with a by lia. now rewrite (range_nil a a) by lia.
  - rewrite (range_cons a c), (range_cons a b) by lia.
    cbn [app]. f_equal. apply IH; lia.
Qed.

(** X22: the first cell that cannot be read ends the extraction: its
    exception is raised, the cells before it have been read and no cell
    after it is asked for. *)
Theorem extract_tenant_id_stops (j : Z) (e : exn) w :
  1 <= j <= 12 ->
  (forall i, 1 <= i < j ->
             value_index gdb data i = Ok (cell i) /\ value_int gdb (cell i) = Ok (byte i)) ->
  value_index gdb data j = Raise e ->
  extract_tenant_id gdb data w
  = (Raise e,
     {| MAIN_GLOBAL_BLOCK := MAIN_GLOBAL_BLOCK w;
        trace := (EvIndex data j :: rev (cell_reads data cell (Py.range 1 j)) ++ trace w)%list |}).
Proof.
  intros Hj H He. unfold extract_tenant_id, bind.
  change (OBJECT_ID_WIDTH + 1) with 13.
  rewrite (range_app 1 j 13), (range_cons j 13) by lia.
  rewrite (comprehension_fails _ _ j e); [reflexivity | | exact He].
  intros i Hi. apply H. unfold Py.range in Hi. apply in_map_iff in Hi.
  destruct Hi as (k & <- & Hk). apply in_seq in Hk. lia.
Qed.

End TenantId.

Lemma extract_tenant_id_reads_witness :
  fst (extract_tenant_id (Identifier.oracle Identifier.content 13) Identifier.Data
                         module_loaded)
  = Ok "adbecfe0f102132435465768".
Proof.
  assert (H := extract_tenant_id_reads
                 (Identifier.oracle Identifier.content 13) Identifier.Data
                 Identifier.Cell Identifier.content module_loaded).
  destruct H as [H _].
  - intros i Hi. split; [| reflexivity]. cbn.
    destruct (Z.leb_spec 0 i); [| lia]. destruct (Z.ltb_spec i 13); [reflexivity | lia].
  - rewrite H. reflexivity.
Defined.

Lemma extract_tenant_id_stops_witness :
  extract_tenant_id (Identifier.oracle Identifier.content 8) Identifier.Data
                    module_loaded
  = (Raise (gdb_error "Cannot access memory at address 0x0"),
     {| MAIN_GLOBAL_BLOCK := Unbound;
        trace := (EvIndex Identifier.Data 8
                  :: rev (cell_reads Identifier.Data Identifier.Cell (Py.range 1 8))
                  ++ [])%list |}).
Proof.
  apply (extract_tenant_id_stops
           (Identifier.oracle Identifier.content 8) Identifier.Data
           Identifier.Cell Identifier.content 8
           (gdb_error "Cannot access memory at address 0x0") module_loaded).
  - lia.
  - intros i Hi. split; [| reflexivity]. cbn.
    destruct (Z.leb_spec 0 i); [| lia]. destruct (Z.ltb_spec i 8); [reflexivity | lia].
  - reflexivity.
Defined.

Lemma walker_first_element_is_lazy_witness :
  exists w' next,
    absl_get_nodes (Toy.oracle Toy.scenario) Toy.Table module_loaded
    = Yielded (toy_slot 2) w' next
    /\ extends (reads_up_to 2) module_loaded w'.
Proof.
  apply (walker_first_element_is_lazy
           (Toy.oracle Toy.scenario) Toy.Table Toy.Common Toy.Size Toy.Capacity
           Toy.Control 7 module_loaded
           ltac:(toy_table) ltac:(toy_table) ltac:(toy_table) ltac:(toy_table)
           ltac:(toy_table) ltac:(toy_table)
           Toy.SlotType (Toy.ctrl_bytes Toy.scenario) toy_slot
           ltac:(toy_table) ltac:(simpl; lia) ltac:(toy_table) ltac:(toy_table)
           [-1; -1] 0).
  - repeat constructor.
  - lia.
  - intros j x H. do 3 (destruct j as [|j]; [exact H |]).
    destruct j; discriminate H.
Defined.
